(** * QuantEngine numerical core: a shallow embedding and its properties

    The TypeScript sources ([utils/math.ts], [core/summaryStats.ts],
    [core/tails.ts], [core/tests.ts], and from [core/timeSeries.ts],
    [core/parse.ts], [core/distributions.ts] and [core/plots.ts] the
    functions that compute) work on JavaScript [number]s.

    - A [number] is [NaN], one of the two infinities, or a finite value.
      Every operation on finite values is read as the exact operation
      on real numbers: rounding, overflow, underflow and the sign of
      zero are not modelled.  The special values follow IEEE 754
      ([x / 0], [0 / 0], [log 0], [Infinity - Infinity], comparisons
      with [NaN], ...).
    - An array is a list; reading outside of it yields [NaN], which is
      what arithmetic makes of [undefined].
    - A [for] loop is a fold over the values of its counter, a loop
      with [break] a recursion on the number of turns that are left,
      the [while] loop of the golden-section search a recursion on a
      bound for its number of turns.
    - [throw] is the [Throw] result, [null] is [None].

    Samples are lists of reals injected by [Fin], as the input
    validation of the application admits finite values only. *)

From Stdlib Require Import Reals Lra Lia List ZArith Bool String Sorted Permutation.
Import ListNotations.

Open Scope R_scope.

(** ** JavaScript numbers *)

Module Num.

Inductive number : Type :=
| NaN
| NegInf
| PosInf
| Fin (r : R).

Definition Rltb (x y : R) : bool := if Rlt_dec x y then true else false.
Definition Rleb (x y : R) : bool := if Rle_dec x y then true else false.
Definition Reqb (x y : R) : bool := if Req_dec_T x y then true else false.

(** Comparisons: every comparison with [NaN] is false. *)
Definition lt (a b : number) : bool :=
  match a, b with
  | NaN, _ | _, NaN => false
  | Fin x, Fin y => Rltb x y
  | _, NegInf => false
  | NegInf, _ => true
  | PosInf, _ => false
  | Fin _, PosInf => true
  end.

Definition le (a b : number) : bool :=
  match a, b with
  | NaN, _ | _, NaN => false
  | Fin x, Fin y => Rleb x y
  | NegInf, _ => true
  | _, PosInf => true
  | _, NegInf => false
  | PosInf, Fin _ => false
  end.

Definition gt (a b : number) : bool := lt b a.
Definition ge (a b : number) : bool := le b a.

(** [===] on numbers. *)
Definition eq (a b : number) : bool :=
  match a, b with
  | Fin x, Fin y => Reqb x y
  | PosInf, PosInf | NegInf, NegInf => true
  | _, _ => false
  end.

Definition neg (a : number) : number :=
  match a with
  | NaN => NaN
  | NegInf => PosInf
  | PosInf => NegInf
  | Fin x => Fin (- x)
  end.

Definition add (a b : number) : number :=
  match a, b with
  | NaN, _ | _, NaN => NaN
  | Fin x, Fin y => Fin (x + y)
  | PosInf, NegInf | NegInf, PosInf => NaN
  | PosInf, _ | _, PosInf => PosInf
  | NegInf, _ | _, NegInf => NegInf
  end.

Definition sub (a b : number) : number := add a (neg b).

(** The sign of a finite factor decides the sign of an infinite product;
    a zero factor makes it [NaN]. *)
Definition scale_inf (pos : bool) (y : R) : number :=
  if Reqb y 0 then NaN
  else if Bool.eqb pos (Rltb 0 y) then PosInf else NegInf.

Definition mul (a b : number) : number :=
  match a, b with
  | NaN, _ | _, NaN => NaN
  | Fin x, Fin y => Fin (x * y)
  | PosInf, PosInf | NegInf, NegInf => PosInf
  | PosInf, NegInf | NegInf, PosInf => NegInf
  | PosInf, Fin y | Fin y, PosInf => scale_inf true y
  | NegInf, Fin y | Fin y, NegInf => scale_inf false y
  end.

(** Division: a finite non-zero value over zero is an infinity, [0/0] is
    [NaN]; zero is read as [+0]. *)
Definition div (a b : number) : number :=
  match a, b with
  | NaN, _ | _, NaN => NaN
  | Fin x, Fin y =>
      if Reqb y 0 then
        if Reqb x 0 then NaN else if Rltb 0 x then PosInf else NegInf
      else Fin (x / y)
  | Fin _, (PosInf | NegInf) => Fin 0
  | (PosInf | NegInf), (PosInf | NegInf) => NaN
  | PosInf, Fin y => if Rltb y 0 then NegInf else PosInf
  | NegInf, Fin y => if Rltb y 0 then PosInf else NegInf
  end.

Definition of_nat (n : nat) : number := Fin (INR n).

(** Arrays: [arr.length] and [arr[i]].  Reading outside the array gives
    [undefined], which every arithmetic operation turns into [NaN]. *)
Definition length (arr : list number) : number := of_nat (List.length arr).

Definition nth (arr : list number) (i : nat) : number := List.nth i arr NaN.

Definition get (arr : list number) (i : number) : number :=
  match i with
  | Fin r =>
      if Reqb (IZR (Zfloor r)) r && Rleb 0 r
      then nth arr (Z.to_nat (Zfloor r))
      else NaN
  | _ => NaN
  end.

(** The values taken by the counter of
    [for (let i = start; i < bound; i++)].  The bounds in the sources
    are array lengths and floors of finite products; with an infinite
    start or bound the JavaScript loop may not end, and the embedding is
    not meant for it. *)
Definition range (start bound : number) : list number :=
  match start, bound with
  | Fin s, Fin b =>
      map (fun j => Fin (s + INR j)) (seq 0 (Z.to_nat (Zceil (b - s))))
  | _, _ => []
  end.

End Num.

Abbreviation number := Num.number.
Abbreviation NaN := Num.NaN.
Abbreviation PosInf := Num.PosInf.
Abbreviation NegInf := Num.NegInf.
Abbreviation Fin := Num.Fin.

Declare Scope js_scope.
Delimit Scope js_scope with js.
Bind Scope js_scope with number.
Notation "a + b" := (Num.add a b) : js_scope.
Notation "a - b" := (Num.sub a b) : js_scope.
Notation "a * b" := (Num.mul a b) : js_scope.
Notation "a / b" := (Num.div a b) : js_scope.
Notation "- a" := (Num.neg a) : js_scope.
Notation "a <? b" := (Num.lt a b) (at level 70) : js_scope.
Notation "a <=? b" := (Num.le a b) (at level 70) : js_scope.
Notation "a >? b" := (Num.gt a b) (at level 70) : js_scope.
Notation "a >=? b" := (Num.ge a b) (at level 70) : js_scope.
Notation "a =? b" := (Num.eq a b) (at level 70) : js_scope.
Notation "# r" := (Fin r%R) (at level 5, r at level 1, format "# r") : js_scope.

Import Num(Rltb, Rleb, Reqb, of_nat).

(** ** The [Math] object *)

Module Math.

(** [Math.abs], [Math.max], [Math.min], [Math.floor], [Math.ceil]. *)
Definition abs (a : number) : number :=
  match a with
  | NaN => NaN
  | NegInf | PosInf => PosInf
  | Fin x => Fin (Rabs x)
  end.

Definition max (a b : number) : number :=
  match a, b with
  | NaN, _ | _, NaN => NaN
  | _, _ => if Num.lt a b then b else a
  end.

Definition min (a b : number) : number :=
  match a, b with
  | NaN, _ | _, NaN => NaN
  | _, _ => if Num.lt b a then b else a
  end.

Definition floor (a : number) : number :=
  match a with
  | Fin x => Fin (IZR (Zfloor x))
  | _ => a
  end.

Definition ceil (a : number) : number :=
  match a with
  | Fin x => Fin (IZR (Zceil x))
  | _ => a
  end.

(** [Math.sqrt], [Math.exp], [Math.log], [Math.sin]. *)
Definition sqrt (a : number) : number :=
  match a with
  | NaN | NegInf => NaN
  | PosInf => PosInf
  | Fin x => if Rltb x 0 then NaN else Fin (R_sqrt.sqrt x)
  end.

Definition exp (a : number) : number :=
  match a with
  | NaN => NaN
  | NegInf => Fin 0
  | PosInf => PosInf
  | Fin x => Fin (Rtrigo_def.exp x)
  end.

Definition log (a : number) : number :=
  match a with
  | NaN | NegInf => NaN
  | PosInf => PosInf
  | Fin x => if Rltb x 0 then NaN else if Reqb x 0 then NegInf else Fin (ln x)
  end.

Definition sin (a : number) : number :=
  match a with
  | Fin x => Fin (Rtrigo_def.sin x)
  | _ => NaN
  end.

(** [Math.pow(a, k)] for the non-negative integer exponents the sources
    use ([Math.pow(x, 2)], [Math.pow(-1, k - 1)]); [Math.pow(a, 0)] is 1
    for every [a], [NaN] included. *)
Fixpoint pow (a : number) (k : nat) : number :=
  match k with
  | O => Fin 1
  | S k' => Num.mul a (pow a k')
  end.

Definition PI : number := Fin Rtrigo1.PI.

End Math.

Local Open Scope js_scope.

(** Results of functions that may [throw]. *)
Inductive result (A : Type) : Type :=
| Ok (a : A)
| Throw (message : string).
Arguments Ok {A} a.
Arguments Throw {A} message.

(** [[...data].sort((a, b) => a - b)]: the stable ascending sort of a
    copy of the array.  The engine's algorithm is not fixed by the
    language; on numbers that the comparator orders consistently every
    stable sort gives the list below. *)
Fixpoint insert (x : number) (l : list number) : list number :=
  match l with
  | [] => [x]
  | y :: l' => if (x - y) >? #0 then y :: insert x l' else x :: l
  end.

Definition sort_asc (data : list number) : list number :=
  fold_right insert [] data.

(** ** [utils/math.ts] *)

(** [erf(x)]: Abramowitz and Stegun's rational approximation. *)
Definition erf (x : number) : number :=
  let sign := if x >=? #0 then #1 else #(-1) in
  let x := Math.abs x in
  let a1 := #0.254829592 in
  let a2 := #(-0.284496736) in
  let a3 := #1.421413741 in
  let a4 := #(-1.453152027) in
  let a5 := #1.061405429 in
  let p := #0.3275911 in
  let t := #1 / (#1 + p * x) in
  let y := #1 - (((((a5 * t + a4) * t) + a3) * t + a2) * t + a1) * t
                * Math.exp (- x * x) in
  sign * y.

(** [normCDF(x)]. *)
Definition normCDF (x : number) : number :=
  #0.5 * (#1 + erf (x / Math.sqrt #2)).

Definition lanczos_coef : list number :=
  [ #0.99999999999980993; #676.5203681218851; #(-1259.1392167224028);
    #771.32342877765313; #(-176.61502916214059); #12.507343278686905;
    #(-0.13857109526572012); #9.9843695780195716e-6;
    #1.5056327351493116e-7 ].

(** The part of [logGamma] after its two guards: Lanczos' sum with
    [g = 7]. *)
Definition logGamma_lanczos (x : number) : number :=
  let g := #7 in
  let coef := lanczos_coef in
  let x := x - #1 in
  let a :=
    fold_left (fun a i => a + Num.get coef i / (x + i))
              (Num.range #1 (g + #2)) (Num.get coef #0) in
  let t := x + g + #0.5 in
  Math.log (Math.sqrt (#2 * Math.PI)) + Math.log a
  + (x + #0.5) * Math.log t - t.

(** [logGamma(x)].  The source calls itself once, on [1 - x], when
    [0 < x < 0.5]; that argument is above [0.5], so the inner call goes
    straight to the Lanczos sum. *)
Definition logGamma (x : number) : number :=
  if x <=? #0 then NaN
  else if x <? #0.5 then
    Math.log (Math.PI / Math.sin (Math.PI * x)) - logGamma_lanczos (#1 - x)
  else logGamma_lanczos x.

(** The loop of [betaInc]: [iters] iterations are left, [m] is the
    counter, [f], [c], [d] the loop variables; [break] returns. *)
Fixpoint betaInc_loop (iters : nat) (m x a b f c d : number) : number :=
  match iters with
  | O => f
  | S iters' =>
      let EPS := #3e-7 in
      let aa := m * (b - m) * x / ((a + #2 * m - #1) * (a + #2 * m)) in
      let d := #1 / (#1 + aa * d) in
      let c := #1 + aa / c in
      let f := f * (d * c) in
      let aa2 :=
        - (a + m) * (a + b + m) * x / ((a + #2 * m) * (a + #2 * m + #1)) in
      let d := #1 / (#1 + aa2 * d) in
      let c := #1 + aa2 / c in
      let del := d * c in
      let f := f * del in
      if Math.abs (del - #1) <? EPS then f
      else betaInc_loop iters' (m + #1) x a b f c d
  end.

(** [betaInc(x, a, b)]. *)
Definition betaInc (x a b : number) : number :=
  if (x <? #0) || (x >? #1) then NaN
  else if x =? #0 then #0
  else if x =? #1 then #1
  else
    let MAXIT := 100%nat in
    let lbeta := logGamma a + logGamma b - logGamma (a + b) in
    let front :=
      Math.exp (Math.log x * a + Math.log (#1 - x) * b - lbeta) / a in
    let f := #1 in
    let c := #1 in
    let d := #1 / (#1 - (a + b) * x / (a + #1)) in
    front * betaInc_loop MAXIT #1 x a b f c d.




(** [quantile(sortedArr, p)]: the empirical quantile by linear
    interpolation between the order statistics around [p * (n - 1)]. *)
Definition quantile (sortedArr : list number) (p : number) : number :=
  if Num.length sortedArr =? #0 then NaN
  else if p <=? #0 then Num.get sortedArr #0
  else if p >=? #1 then Num.get sortedArr (Num.length sortedArr - #1)
  else
    let index := p * (Num.length sortedArr - #1) in
    let lower := Math.floor index in
    let upper := Math.ceil index in
    let weight := index - lower in
    Num.get sortedArr lower * (#1 - weight) + Num.get sortedArr upper * weight.

(** ** [core/summaryStats.ts] *)

Module Welford.
Record t : Type := { mean : number; variance : number; m2 : number }.
End Welford.

(** One turn of the loop of [welfordAlgorithm] on the variables
    [(n, mean, m2)]. *)
Definition welford_step (st : number * number * number) (x : number)
    : number * number * number :=
  let '(n, mean, m2) := st in
  let n := n + #1 in
  let delta := x - mean in
  let mean := mean + delta / n in
  let delta2 := x - mean in
  let m2 := m2 + delta * delta2 in
  (n, mean, m2).

(** [welfordAlgorithm(data)]. *)
Definition welfordAlgorithm (data : list number) : Welford.t :=
  let '(n, mean, m2) := fold_left welford_step data (#0, #0, #0) in
  let variance := if n >? #1 then m2 / (n - #1) else #0 in
  {| Welford.mean := mean; Welford.variance := variance; Welford.m2 := m2 |}.

(** [computeSkewness(data, mean, stdDev)]. *)
Definition computeSkewness (data : list number) (mean stdDev : number)
    : number :=
  let n := Num.length data in
  if (n <? #3) || (stdDev =? #0) then #0
  else
    let m3 :=
      fold_left (fun m3 x => let z := (x - mean) / stdDev in m3 + z * z * z)
                data #0 in
    let skew := m3 / n in
    let correction := Math.sqrt (n * (n - #1)) / (n - #2) in
    skew * correction.

(** [computeKurtosis(data, mean, stdDev)]. *)
Definition computeKurtosis (data : list number) (mean stdDev : number)
    : number :=
  let n := Num.length data in
  if (n <? #4) || (stdDev =? #0) then #0
  else
    let m4 :=
      fold_left
        (fun m4 x => let z := (x - mean) / stdDev in m4 + z * z * z * z)
        data #0 in
    let kurt := m4 / n in
    let correction1 := (n - #1) / ((n - #2) * (n - #3)) in
    let correction2 := (n + #1) * kurt - #3 * (n - #1) in
    correction1 * correction2.

Module SummaryStats.
Record t : Type := {
  count : number;
  mean : number;
  variance : number;
  stdDev : number;
  median : number;
  skewness : number;
  kurtosis : number;
  min : number;
  max : number;
  p5 : number;
  p25 : number;
  p50 : number;
  p75 : number;
  p95 : number
}.
End SummaryStats.

(** [computeSummaryStats(data)]. *)
Definition computeSummaryStats (data : list number)
    : result SummaryStats.t :=
  let n := Num.length data in
  if n =? #0 then Throw "Cannot compute statistics on empty data"%string
  else
    let welford := welfordAlgorithm data in
    let mean := Welford.mean welford in
    let variance := Welford.variance welford in
    let stdDev := Math.sqrt variance in
    let sorted := sort_asc data in
    let median := quantile sorted #0.5 in
    let min := Num.get sorted #0 in
    let max := Num.get sorted (n - #1) in
    let p5 := quantile sorted #0.05 in
    let p25 := quantile sorted #0.25 in
    let p50 := median in
    let p75 := quantile sorted #0.75 in
    let p95 := quantile sorted #0.95 in
    let skewness := computeSkewness data mean stdDev in
    let kurtosis := computeKurtosis data mean stdDev in
    Ok {| SummaryStats.count := n;
          SummaryStats.mean := mean;
          SummaryStats.variance := variance;
          SummaryStats.stdDev := stdDev;
          SummaryStats.median := median;
          SummaryStats.skewness := skewness;
          SummaryStats.kurtosis := kurtosis;
          SummaryStats.min := min;
          SummaryStats.max := max;
          SummaryStats.p5 := p5;
          SummaryStats.p25 := p25;
          SummaryStats.p50 := p50;
          SummaryStats.p75 := p75;
          SummaryStats.p95 := p95 |}.

(** ** [core/tails.ts] *)

(** [computeVaR(sorted, confidence)]. *)
Definition computeVaR (sorted : list number) (confidence : number) : number :=
  let alpha := #1 - confidence in
  - quantile sorted alpha.

(** [computeCVaR(sorted, confidence)]. *)
Definition computeCVaR (sorted : list number) (confidence : number) : number :=
  let n := Num.length sorted in
  let alpha := #1 - confidence in
  let varIndex := Math.floor (alpha * n) in
  if varIndex =? #0 then - Num.get sorted #0
  else
    let sum :=
      fold_left (fun sum i => sum + Num.get sorted i)
                (Num.range #0 varIndex) #0 in
    - sum / varIndex.

(** [computeHillIndex(sorted)]. *)
Definition computeHillIndex (sorted : list number) : number :=
  let n := Num.length sorted in
  let k :=
    Math.max (Math.max (Math.floor (Math.sqrt n)) (Math.floor (#0.05 * n)))
             #20 in
  let kActual := Math.min k (Math.floor (n * #0.2)) in
  if kActual <? #5 then NaN
  else
    let threshold := Num.get sorted (n - kActual) in
    let sum :=
      fold_left
        (fun sum i =>
           let logRatio := Math.log (Num.get sorted i / threshold) in
           sum + logRatio)
        (Num.range (n - kActual) n) #0 in
    let gamma := sum / kActual in
    gamma.

(** [computeLeftTailIndex(sorted)]. *)
Definition computeLeftTailIndex (sorted : list number) : number :=
  let n := Num.length sorted in
  let k :=
    Math.max (Math.max (Math.floor (Math.sqrt n)) (Math.floor (#0.05 * n)))
             #20 in
  let kActual := Math.min k (Math.floor (n * #0.2)) in
  if kActual <? #5 then NaN
  else
    let threshold := - Num.get sorted (kActual - #1) in
    let sum :=
      fold_left
        (fun sum i =>
           let val := - Num.get sorted i in
           if val >? #0 then
             let logRatio := Math.log (val / threshold) in
             sum + logRatio
           else sum)
        (Num.range #0 kActual) #0 in
    sum / kActual.

Module TailMetrics.
Record t : Type := {
  var95 : number;
  var99 : number;
  cvar95 : number;
  cvar99 : number;
  hillIndex : number
}.
End TailMetrics.

(** [computeTailMetrics(data)]. *)
Definition computeTailMetrics (data : list number) : TailMetrics.t :=
  let sorted := sort_asc data in
  let var95 := computeVaR sorted #0.95 in
  let var99 := computeVaR sorted #0.99 in
  let cvar95 := computeCVaR sorted #0.95 in
  let cvar99 := computeCVaR sorted #0.99 in
  let hillIndex := computeHillIndex sorted in
  {| TailMetrics.var95 := var95;
     TailMetrics.var99 := var99;
     TailMetrics.cvar95 := cvar95;
     TailMetrics.cvar99 := cvar99;
     TailMetrics.hillIndex := hillIndex |}.

(** ** [core/tests.ts] *)

Module StatisticalTest.
Record t : Type := {
  name : string;
  statistic : number;
  pValue : number;
  rejectNull : bool;
  alpha : number
}.
End StatisticalTest.


(** The loop of [ksAsymptoticPValue]: [iters] terms are left, [k] is
    the counter ([kpred] is [k - 1], the exponent of [-1]). *)
Fixpoint ksSeries_loop (iters : nat) (kpred : nat) (k lambda sum : number)
    : number :=
  match iters with
  | O => sum
  | S iters' =>
      let term :=
        #2 * Math.pow #(-1) kpred
        * Math.exp (#(-2) * k * k * lambda * lambda) in
      let sum := sum + term in
      if Math.abs term <? #1e-10 then sum
      else ksSeries_loop iters' (S kpred) (k + #1) lambda sum
  end.

(** [ksAsymptoticPValue(d, n)]. *)
Definition ksAsymptoticPValue (d n : number) : number :=
  let lambda := (Math.sqrt n + #0.12 + #0.11 / Math.sqrt n) * d in
  let sum := ksSeries_loop 100 0 #1 lambda #0 in
  Math.max #0 (Math.min #1 sum).

(** One turn of the loop of [kolmogorovSmirnovTest] on the variables
    [(dPlus, dMinus)]. *)
Definition ks_step (n : number) (sorted : list number) (mu sigma : number)
    (st : number * number) (i : number) : number * number :=
  let '(dPlus, dMinus) := st in
  let x := Num.get sorted i in
  let empiricalCDF := (i + #1) / n in
  let theoreticalCDF := normCDF ((x - mu) / sigma) in
  let dPlus := Math.max dPlus (empiricalCDF - theoreticalCDF) in
  let dMinus := Math.max dMinus (theoreticalCDF - i / n) in
  (dPlus, dMinus).

(** [kolmogorovSmirnovTest(data, mu, sigma, alpha)]. *)
Definition kolmogorovSmirnovTest (data : list number) (mu sigma : number)
    (alpha : number) : StatisticalTest.t :=
  let n := Num.length data in
  let sorted := sort_asc data in
  let '(dPlus, dMinus) :=
    fold_left (ks_step n sorted mu sigma) (Num.range #0 n) (#0, #0) in
  let d := Math.max dPlus dMinus in
  let pValue := ksAsymptoticPValue d n in
  {| StatisticalTest.name := "Kolmogorov-Smirnov"%string;
     StatisticalTest.statistic := d;
     StatisticalTest.pValue := pValue;
     StatisticalTest.rejectNull := pValue <? alpha;
     StatisticalTest.alpha := alpha |}.

(** One turn of the summation loop of [andersonDarlingTest]. *)
Definition ad_step (sorted : list number) (mu sigma : number)
    (sum : number) (i : number) : number :=
  let x := Num.get sorted i in
  let z := (x - mu) / sigma in
  let phi := normCDF z in
  let phi1 := Math.max #1e-10 (Math.min (#1 - #1e-10) phi) in
  let phi2 := Math.max #1e-10 (Math.min (#1 - #1e-10) (#1 - phi)) in
  sum + (#2 * (i + #1) - #1) * (Math.log phi1 + Math.log phi2).

(** [andersonDarlingTest(data, mu, sigma, alpha)]. *)
Definition andersonDarlingTest (data : list number) (mu sigma : number)
    (alpha : number) : StatisticalTest.t :=
  let n := Num.length data in
  let sorted := sort_asc data in
  let sum := fold_left (ad_step sorted mu sigma) (Num.range #0 n) #0 in
  let a2 := - n - sum / n in
  let a2Adjusted := a2 * (#1 + #0.75 / n + #2.25 / (n * n)) in
  let criticalValue := #0.787 in
  let rejectNull := a2Adjusted >? criticalValue in
  let pValue :=
    if a2Adjusted <? #0.2 then
      #1 - Math.exp (#(-13.436) + #101.14 * a2Adjusted
                     - #223.73 * a2Adjusted * a2Adjusted)
    else if a2Adjusted <? #0.34 then
      #1 - Math.exp (#(-8.318) + #42.796 * a2Adjusted
                     - #59.938 * a2Adjusted * a2Adjusted)
    else if a2Adjusted <? #0.6 then
      Math.exp (#0.9177 - #4.279 * a2Adjusted
                - #1.38 * a2Adjusted * a2Adjusted)
    else
      Math.exp (#1.2937 - #5.709 * a2Adjusted
                + #0.0186 * a2Adjusted * a2Adjusted) in
  let pValue := Math.max #0 (Math.min #1 pValue) in
  {| StatisticalTest.name := "Anderson-Darling"%string;
     StatisticalTest.statistic := a2Adjusted;
     StatisticalTest.pValue := pValue;
     StatisticalTest.rejectNull := rejectNull;
     StatisticalTest.alpha := alpha |}.



(** ** JavaScript built-ins used by the other functions *)

(** [isNaN(x)] and [isFinite(x)] on numbers. *)
Definition isNaN (x : number) : bool :=
  match x with
  | NaN => true
  | _ => false
  end.


(** The integer part of a real, towards zero. *)
Definition Ztrunc (r : R) : Z := if Rleb 0 r then Zfloor r else Zceil r.



(** [arr.slice(start, end)]: both arguments are truncated to integers,
    a negative one counts from the end of the array, and both are
    clamped to the array. *)
Definition slice_position (len : nat) (x : number) : nat :=
  match x with
  | NaN | NegInf => 0%nat
  | PosInf => len
  | Fin r =>
      let z := Ztrunc r in
      if (z <? 0)%Z then Z.to_nat (Z.max (Z.of_nat len + z) 0)
      else Nat.min (Z.to_nat z) len
  end.

Definition slice {A : Type} (arr : list A) (start end_ : number) : list A :=
  let k := slice_position (List.length arr) start in
  let final := slice_position (List.length arr) end_ in
  firstn (final - k) (skipn k arr).


(** [Math.pow(x, y)] with an arbitrary exponent: the cases of the
    language definition in their order, a zero being read as [+0]. *)
Definition is_integer (r : R) : bool := Reqb (IZR (Zfloor r)) r.

Definition is_odd_integer (r : R) : bool := is_integer r && Z.odd (Zfloor r).

Definition power (x y : number) : number :=
  match y with
  | NaN => NaN
  | Fin e =>
      if Reqb e 0 then #1
      else
        match x with
        | NaN => NaN
        | PosInf => if Rltb 0 e then PosInf else #0
        | NegInf =>
            if Rltb 0 e then (if is_odd_integer e then NegInf else PosInf)
            else #0
        | Fin b =>
            if Reqb b 0 then (if Rltb 0 e then #0 else PosInf)
            else if Rltb 0 b then Fin (Rpower b e)
            else if is_integer e then Fin (powerRZ b (Zfloor e))
            else NaN
        end
  | PosInf =>
      match x with
      | NaN => NaN
      | PosInf | NegInf => PosInf
      | Fin b =>
          if Rltb 1 (Rabs b) then PosInf
          else if Reqb (Rabs b) 1 then NaN
          else #0
      end
  | NegInf =>
      match x with
      | NaN => NaN
      | PosInf | NegInf => #0
      | Fin b =>
          if Rltb 1 (Rabs b) then #0
          else if Reqb (Rabs b) 1 then NaN
          else PosInf
      end
  end.

(** ** [utils/math.ts]: the other functions *)

(** [erfc(x)]. *)
Definition erfc (x : number) : number := #1 - erf x.


(** [normPDF(x)]. *)
Definition normPDF (x : number) : number :=
  Math.exp (#(-0.5) * x * x) / Math.sqrt (#2 * Math.PI).


(** [gamma(x)]. *)
Definition gamma (x : number) : number := Math.exp (logGamma x).

(** [tCDF(x, df)]. *)
Definition tCDF (x df : number) : number :=
  if df <=? #0 then NaN
  else
    let t2 := x * x in
    let z := t2 / (df + t2) in
    let p := #0.5 * betaInc z (#0.5 * df) #0.5 in
    if x >=? #0 then #1 - p else p.

(** [tPDF(x, df)]. *)
Definition tPDF (x df : number) : number :=
  if df <=? #0 then NaN
  else
    let num := gamma ((df + #1) / #2) in
    let denom := Math.sqrt (df * Math.PI) * gamma (df / #2) in
    (num / denom) * power (#1 + (x * x) / df) (- (df + #1) / #2).

(** [laplacePDF(x, mu, b)]. *)
Definition laplacePDF (x mu b : number) : number :=
  (#1 / (#2 * b)) * Math.exp (- Math.abs (x - mu) / b).

(** [sort(arr)]: the array itself, sorted in place. *)
Definition sort (arr : list number) : list number := sort_asc arr.

(** [safeDivide(num, den)]. *)
Definition safeDivide (num den : number) : number :=
  if den =? #0 then #0 else num / den.

(** [clamp(value, min, max)]. *)
Definition clamp (value min max : number) : number :=
  Math.max min (Math.min max value).


(** ** [core/summaryStats.ts]: the other functions *)




(** ** The time-series module (the second part of
    [core/summaryStats.ts]) *)

Module ACFPoint.
Record t : Type := { lag : number; value : number; significant : bool }.
End ACFPoint.


Module RollingStats.
Record t : Type := { rollingMean : list number; rollingStd : list number }.
End RollingStats.


(** [computeSquaredReturns(data)]. *)
Definition computeSquaredReturns (data : list number) : list number :=
  map (fun x => x * x) data.

(** One turn of the regression loop of [fitAR1] and [adfTest] on the
    variables [(numerator, denominator)]. *)
Definition regression_step (x y : list number) (meanX meanY : number)
    (st : number * number) (i : number) : number * number :=
  let '(numerator, denominator) := st in
  (numerator + (Num.get x i - meanX) * (Num.get y i - meanY),
   denominator + Math.pow (Num.get x i - meanX) 2).

Module AR1.
Record t : Type := {
  phi : number;
  tStat : number;
  rSquared : number;
  stationary : bool
}.
End AR1.


Inductive Stationarity : Type :=
| stationary
| non_stationary
| marginal.

Module ADF.
Record t : Type := {
  statistic : number;
  pValue : number;
  stationarity : Stationarity
}.
End ADF.

(** [adfTest(data)]. *)
Definition adfTest (data : list number) : ADF.t :=
  let n := Num.length data in
  if n <? #4 then
    {| ADF.statistic := NaN; ADF.pValue := NaN; ADF.stationarity := marginal |}
  else
    let diff :=
      map (fun t => Num.get data t - Num.get data (t - #1))
          (Num.range #1 n) in
    let y := diff in
    let x := slice data #0 #(-1) in
    let meanX := fold_left (fun sum val => sum + val) x #0 / Num.length x in
    let meanY := fold_left (fun sum val => sum + val) y #0 / Num.length y in
    let '(numerator, denominator) :=
      fold_left (regression_step x y meanX meanY)
                (Num.range #0 (Num.length x)) (#0, #0) in
    let gamma := numerator / denominator in
    let residuals :=
      map (fun i => Num.get y i - gamma * Num.get x i)
          (Num.range #0 (Num.length x)) in
    let ssr := fold_left (fun sum r => sum + r * r) residuals #0 in
    let variance := ssr / (Num.length x - #1) in
    let seGamma := Math.sqrt (variance / denominator) in
    let statistic := gamma / seGamma in
    let pValue :=
      if statistic <? #(-3.51) then #0.005
      else if statistic <? #(-2.89) then #0.03
      else if statistic <? #(-2.58) then #0.08
      else #0.15 in
    let stationarity :=
      if pValue <? #0.05 then stationary
      else if pValue <? #0.10 then marginal
      else non_stationary in
    {| ADF.statistic := statistic; ADF.pValue := pValue;
       ADF.stationarity := stationarity |}.

(** ** [core/tails.ts]: the other functions *)

(** [interpretHillIndex(gamma)]. *)
Definition interpretHillIndex (gamma : number) : string :=
  if isNaN gamma then "Insufficient data"%string
  else if gamma >? #0.5 then "Extremely heavy tail (Pareto-like)"%string
  else if gamma >? #0.3 then "Very heavy tail (common in finance)"%string
  else if gamma >? #0.15 then "Moderate tail"%string
  else if gamma >? #0.05 then "Light tail"%string
  else "Very light tail (near-normal)"%string.

Module MaxDrawdown.
Record t : Type := {
  maxDrawdown : number;
  maxDrawdownPercent : number;
  peakIndex : number;
  troughIndex : number
}.
End MaxDrawdown.

(** One turn of the first loop of [computeMaxDrawdown] on the variables
    [(cumulative, cumReturns)]. *)
Definition cumulative_step (data : list number)
    (st : number * list number) (i : number) : number * list number :=
  let '(cumulative, cumReturns) := st in
  let cumulative := cumulative * (#1 + Num.get data i) in
  (cumulative, cumReturns ++ [cumulative]).

(** The variables of the second loop of [computeMaxDrawdown]. *)
Module Drawdown.
Record t : Type := {
  maxDD : number;
  maxDDPercent : number;
  peakIdx : number;
  troughIdx : number;
  runningMax : number;
  runningMaxIdx : number
}.
End Drawdown.

(** One turn of the second loop of [computeMaxDrawdown]. *)
Definition drawdown_step (cumReturns : list number) (st : Drawdown.t)
    (i : number) : Drawdown.t :=
  let higher := Num.get cumReturns i >? Drawdown.runningMax st in
  let runningMax :=
    if higher then Num.get cumReturns i else Drawdown.runningMax st in
  let runningMaxIdx := if higher then i else Drawdown.runningMaxIdx st in
  let dd := runningMax - Num.get cumReturns i in
  let ddPercent := (runningMax - Num.get cumReturns i) / runningMax in
  if ddPercent >? Drawdown.maxDDPercent st then
    {| Drawdown.maxDD := dd;
       Drawdown.maxDDPercent := ddPercent;
       Drawdown.peakIdx := runningMaxIdx;
       Drawdown.troughIdx := i;
       Drawdown.runningMax := runningMax;
       Drawdown.runningMaxIdx := runningMaxIdx |}
  else
    {| Drawdown.maxDD := Drawdown.maxDD st;
       Drawdown.maxDDPercent := Drawdown.maxDDPercent st;
       Drawdown.peakIdx := Drawdown.peakIdx st;
       Drawdown.troughIdx := Drawdown.troughIdx st;
       Drawdown.runningMax := runningMax;
       Drawdown.runningMaxIdx := runningMaxIdx |}.

(** [computeMaxDrawdown(data)]. *)
Definition computeMaxDrawdown (data : list number) : MaxDrawdown.t :=
  let n := Num.length data in
  if n =? #0 then
    {| MaxDrawdown.maxDrawdown := #0;
       MaxDrawdown.maxDrawdownPercent := #0;
       MaxDrawdown.peakIndex := #(-1);
       MaxDrawdown.troughIndex := #(-1) |}
  else
    let cumulative := #1 in
    let '(_, cumReturns) :=
      fold_left (cumulative_step data) (Num.range #0 n)
                (cumulative, [cumulative]) in
    let st :=
      fold_left (drawdown_step cumReturns)
                (Num.range #1 (Num.length cumReturns))
                {| Drawdown.maxDD := #0;
                   Drawdown.maxDDPercent := #0;
                   Drawdown.peakIdx := #0;
                   Drawdown.troughIdx := #0;
                   Drawdown.runningMax := Num.get cumReturns #0;
                   Drawdown.runningMaxIdx := #0 |} in
    {| MaxDrawdown.maxDrawdown := Drawdown.maxDD st;
       MaxDrawdown.maxDrawdownPercent := Drawdown.maxDDPercent st;
       MaxDrawdown.peakIndex := Drawdown.peakIdx st;
       MaxDrawdown.troughIndex := Drawdown.troughIdx st |}.




(** ** [core/parse.ts] *)

Module Validation.
Record t : Type := { valid : bool; error : option string }.
End Validation.


(** ** The distribution-fitting module ([core/distributions.ts]) *)

Module NormalParams.
Record t : Type := { mu : number; sigma : number }.
End NormalParams.

Module NormalFit.
Record t : Type := { name : string; params : NormalParams.t }.
End NormalFit.


Module LaplaceParams.
Record t : Type := { mu : number; b : number }.
End LaplaceParams.

Module LaplaceFit.
Record t : Type := { name : string; params : LaplaceParams.t }.
End LaplaceFit.


(** [normalPDF(x, mu, sigma)] and [laplaceDistPDF(x, mu, b)]. *)
Definition normalPDF (x mu sigma : number) : number :=
  let z := (x - mu) / sigma in
  normPDF z / sigma.

Definition laplaceDistPDF (x mu b : number) : number := laplacePDF x mu b.

(** [computeLogLikelihood(data, pdfFunc)]: the loop returns
    [-Infinity] at the first value whose density is not above zero. *)
Fixpoint logLikelihood_loop (data : list number) (pdfFunc : number -> number)
    (ll : number) : number :=
  match data with
  | [] => ll
  | x :: data' =>
      let pdf := pdfFunc x in
      if pdf >? #0 then logLikelihood_loop data' pdfFunc (ll + Math.log pdf)
      else NegInf
  end.

Definition computeLogLikelihood (data : list number)
    (pdfFunc : number -> number) : number :=
  logLikelihood_loop data pdfFunc #0.

(** [computeAIC(logLikelihood, numParams)] and
    [computeBIC(logLikelihood, numParams, sampleSize)]. *)
Definition computeAIC (logLikelihood numParams : number) : number :=
  #2 * numParams - #2 * logLikelihood.

Definition computeBIC (logLikelihood numParams sampleSize : number)
    : number :=
  numParams * Math.log sampleSize - #2 * logLikelihood.

(** [studentTPDF(x, mu, sigma, nu)]. *)
Definition studentTPDF (x mu sigma nu : number) : number :=
  let z := (x - mu) / sigma in
  tPDF z nu / sigma.

Module StudentTParams.
Record t : Type := { mu : number; sigma : number; nu : number }.
End StudentTParams.

Module StudentTFit.
Record t : Type := { name : string; params : StudentTParams.t }.
End StudentTFit.



Module Criterion.
Record t : Type := { name : string; aic : number; bic : number }.
End Criterion.

(** [results.sort((a, b) => a.aic - b.aic)]: the stable sort of
    [sort_asc] on the records, by their [aic]. *)
Fixpoint insert_by_aic (x : Criterion.t) (l : list Criterion.t)
    : list Criterion.t :=
  match l with
  | [] => [x]
  | y :: l' =>
      if (Criterion.aic x - Criterion.aic y) >? #0
      then y :: insert_by_aic x l'
      else x :: l
  end.

Definition sort_by_aic (results : list Criterion.t) : list Criterion.t :=
  fold_right insert_by_aic [] results.

(** [compareDistributions(data, normalFit, laplaceFit, tFit)]. *)
Definition compareDistributions (data : list number)
    (normalFit : NormalFit.t) (laplaceFit : LaplaceFit.t)
    (tFit : StudentTFit.t) : list Criterion.t :=
  let n := Num.length data in
  let normalLL :=
    computeLogLikelihood data
      (fun x => normalPDF x (NormalParams.mu (NormalFit.params normalFit))
                          (NormalParams.sigma (NormalFit.params normalFit))) in
  let laplaceLL :=
    computeLogLikelihood data
      (fun x =>
         laplaceDistPDF x (LaplaceParams.mu (LaplaceFit.params laplaceFit))
                        (LaplaceParams.b (LaplaceFit.params laplaceFit))) in
  let tLL :=
    computeLogLikelihood data
      (fun x => studentTPDF x (StudentTParams.mu (StudentTFit.params tFit))
                            (StudentTParams.sigma (StudentTFit.params tFit))
                            (StudentTParams.nu (StudentTFit.params tFit))) in
  let results :=
    [ {| Criterion.name := "Normal"%string;
         Criterion.aic := computeAIC normalLL #2;
         Criterion.bic := computeBIC normalLL #2 n |};
      {| Criterion.name := "Laplace"%string;
         Criterion.aic := computeAIC laplaceLL #2;
         Criterion.bic := computeBIC laplaceLL #2 n |};
      {| Criterion.name := "Student-t"%string;
         Criterion.aic := computeAIC tLL #3;
         Criterion.bic := computeBIC tLL #3 n |} ] in
  sort_by_aic results.

(** ** The histogram of the plotting module ([core/plots.ts]) *)






Module Histogram.
Record t : Type := {
  counts : list number;
  densities : list number;
  binEdges : list number
}.
End Histogram.



Local Close Scope js_scope.

(** * Reference definitions from the specification *)

Local Open Scope js_scope.

(** The naive two-pass mean: [sum(x) / n]. *)
Definition naiveMean (data : list number) : number :=
  fold_left (fun sum x => sum + x) data #0 / Num.length data.

(** The naive two-pass sample variance:
    [sum((x - mean)^2) / (n - 1)] when [n > 1], and 0 otherwise. *)
Definition naiveVariance (data : list number) : number :=
  let n := Num.length data in
  let mean := naiveMean data in
  if n >? #1 then
    fold_left (fun sum x => sum + (x - mean) * (x - mean)) data #0 / (n - #1)
  else #0.

(** [Math.max(...l)], the maximum of a list of numbers; it is
    [-Infinity] on the empty list. *)
Definition maximum (l : list number) : number := fold_left Math.max l NegInf.

(** The one-sided Kolmogorov-Smirnov distances over the sorted points
    [i = 0 .. n-1]: [D+] is the maximum of [(i+1)/n] minus the
    theoretical normal CDF, [D-] the maximum of the theoretical normal
    CDF minus [i/n]. *)
Definition ks_above (n : number) (sorted : list number) (mu sigma : number)
    (i : number) : number :=
  (i + #1) / n - normCDF ((Num.get sorted i - mu) / sigma).

Definition ks_below (n : number) (sorted : list number) (mu sigma : number)
    (i : number) : number :=
  normCDF ((Num.get sorted i - mu) / sigma) - i / n.

Definition ks_Dplus (sorted : list number) (mu sigma : number) : number :=
  let n := Num.length sorted in
  maximum (map (ks_above n sorted mu sigma) (Num.range #0 n)).

Definition ks_Dminus (sorted : list number) (mu sigma : number) : number :=
  let n := Num.length sorted in
  maximum (map (ks_below n sorted mu sigma) (Num.range #0 n)).

(** The capped tail count of the Hill estimators:
    [k = min(max(floor(sqrt(n)), floor(0.05 n), 20), floor(0.2 n))]. *)
Definition cappedTailCount (n : number) : number :=
  Math.min
    (Math.max (Math.max (Math.floor (Math.sqrt n)) (Math.floor (#0.05 * n)))
              #20)
    (Math.floor (#0.2 * n)).

Local Close Scope js_scope.

(** * Auxiliary definitions for the proofs *)

(** Sums over a list of reals. *)
Definition sumR (l : list R) : R := fold_right Rplus 0 l.

Definition meanR (l : list R) : R := sumR l / INR (List.length l).

(** The sum of the squared deviations from [c]. *)
Definition devsqR (c : R) (l : list R) : R :=
  fold_right (fun y acc => (y - c) * (y - c) + acc) 0 l.

(** The interpolation of [quantile] on a list of reals. *)
Definition interpolate (l : list R) (index : R) : R :=
  let lower := Zfloor index in
  let upper := Zceil index in
  let weight := index - IZR lower in
  List.nth (Z.to_nat lower) l 0 * (1 - weight)
  + List.nth (Z.to_nat upper) l 0 * weight.

(** [quantile] on a non-empty list of reals. *)
Definition quantileR (l : list R) (p : R) : R :=
  if Rle_dec p 0 then List.nth 0 l 0
  else if Rle_dec 1 p then List.nth (List.length l - 1) l 0
  else interpolate l (p * (INR (List.length l) - 1)).

(** Ascending order of a list of reals, by positions. *)
Definition ascending (l : list R) : Prop :=
  forall i j : nat,
    (i <= j)%nat -> (j < List.length l)%nat -> List.nth i l 0 <= List.nth j l 0.

(** The sort of [sort_asc] on a list of reals. *)
Fixpoint insertR (x : R) (l : list R) : list R :=
  match l with
  | [] => [x]
  | y :: l' => if Rltb 0 (x - y) then y :: insertR x l' else x :: l
  end.

Definition sortR (data : list R) : list R := fold_right insertR [] data.


(** [erf] and [normCDF] on a real argument. *)
Definition erf_poly (t : R) : R :=
  (((((1.061405429 * t + -1.453152027) * t) + 1.421413741) * t
    + -0.284496736) * t + 0.254829592) * t.

Definition erfR (x : R) : R :=
  let sign := if Rleb 0 x then 1 else -1 in
  let x := Rabs x in
  let t := 1 / (1 + 0.3275911 * x) in
  let y := 1 - erf_poly t * Rtrigo_def.exp (- x * x) in
  sign * y.

Definition normCDFR (x : R) : R := 0.5 * (1 + erfR (x / R_sqrt.sqrt 2)).



(** The sum of [f j] over the positions [j] of a list. *)
Definition sum_over (f : nat -> R) (js : list nat) : R :=
  fold_right (fun j acc => f j + acc) 0 js.



(** A finite number. *)
Definition finite (x : number) : Prop := exists r : R, x = Fin r.

(** A finite number between 0 and 1. *)
Definition probability (x : number) : Prop :=
  exists p : R, x = Fin p /\ 0 <= p <= 1.

(** A number that is [NaN] or not below zero. *)
Definition nonneg_or_nan (x : number) : Prop :=
  x = NaN \/ Num.le (Fin 0) x = true.

(** ** Auxiliary definitions for the other functions *)












(** The order of two entries of a ranking by their AIC. *)
Definition aic_le (a b : Criterion.t) : Prop :=
  Num.le (Criterion.aic a) (Criterion.aic b) = true.




(** * Properties *)

(** ** Comparisons and arithmetic on finite numbers *)

Lemma Rltb_true x y : x < y -> Rltb x y = true.
Proof. intros H; unfold Rltb; destruct (Rlt_dec x y); [reflexivity | lra]. Qed.

Lemma Rltb_false x y : y <= x -> Rltb x y = false.
Proof. intros H; unfold Rltb; destruct (Rlt_dec x y); [lra | reflexivity]. Qed.

Lemma Rleb_true x y : x <= y -> Rleb x y = true.
Proof. intros H; unfold Rleb; destruct (Rle_dec x y); [reflexivity | lra]. Qed.

Lemma Rleb_false x y : y < x -> Rleb x y = false.
Proof. intros H; unfold Rleb; destruct (Rle_dec x y); [lra | reflexivity]. Qed.

Lemma Reqb_true x y : x = y -> Reqb x y = true.
Proof.
  intros H; unfold Reqb; destruct (Req_dec_T x y); [reflexivity | contradiction].
Qed.

Lemma Reqb_false x y : x <> y -> Reqb x y = false.
Proof.
  intros H; unfold Reqb; destruct (Req_dec_T x y); [contradiction | reflexivity].
Qed.

Lemma Rltb_iff x y : Rltb x y = true <-> x < y.
Proof. unfold Rltb; destruct (Rlt_dec x y); split; intros; try easy. Qed.

Lemma Rleb_iff x y : Rleb x y = true <-> x <= y.
Proof. unfold Rleb; destruct (Rle_dec x y); split; intros; try easy. Qed.


(** Decide the real comparisons that occur in the goal. *)
Ltac rdec :=
  unfold Rltb, Rleb, Reqb in *;
  repeat match goal with
         | |- context [Rlt_dec ?x ?y] => destruct (Rlt_dec x y)
         | |- context [Rle_dec ?x ?y] => destruct (Rle_dec x y)
         | |- context [Req_dec_T ?x ?y] => destruct (Req_dec_T x y)
         | H : context [Rlt_dec ?x ?y] |- _ => destruct (Rlt_dec x y)
         | H : context [Rle_dec ?x ?y] |- _ => destruct (Rle_dec x y)
         | H : context [Req_dec_T ?x ?y] |- _ => destruct (Req_dec_T x y)
         end;
  cbn [andb orb negb Bool.eqb] in *.

Lemma div_Fin x y : y <> 0 -> Num.div (Fin x) (Fin y) = Fin (x / y).
Proof. intros H; cbn; now rewrite Reqb_false. Qed.


Lemma INR_Zceil (n : nat) : Zceil (INR n) = Z.of_nat n.
Proof.
  unfold Zceil; rewrite INR_IZR_INZ, <- opp_IZR, ZfloorZ; lia.
Qed.

Lemma Zceil_IZR (z : Z) : Zceil (IZR z) = z.
Proof. unfold Zceil; rewrite <- opp_IZR, ZfloorZ; lia. Qed.

(** ** Arrays of finite numbers *)

Lemma length_map_Fin (l : list R) :
  Num.length (map Fin l) = Fin (INR (List.length l)).
Proof. unfold Num.length, of_nat; now rewrite length_map. Qed.

Lemma nth_map_Fin (l : list R) (i : nat) :
  (i < List.length l)%nat -> Num.nth (map Fin l) i = Fin (List.nth i l 0).
Proof.
  intros H; unfold Num.nth.
  rewrite (nth_indep _ NaN (Fin 0)) by now rewrite length_map.
  apply (map_nth Fin).
Qed.

Lemma get_Fin_Z (l : list R) (z : Z) :
  (0 <= z < Z.of_nat (List.length l))%Z ->
  Num.get (map Fin l) (Fin (IZR z)) = Fin (List.nth (Z.to_nat z) l 0).
Proof.
  intros H; unfold Num.get.
  rewrite ZfloorZ, Reqb_true, Rleb_true; cbn [andb]; auto.
  - apply nth_map_Fin; lia.
  - apply IZR_le; lia.
Qed.

Lemma get_Fin_nat (l : list R) (i : nat) :
  (i < List.length l)%nat ->
  Num.get (map Fin l) (Fin (INR i)) = Fin (List.nth i l 0).
Proof.
  intros H; rewrite INR_IZR_INZ, get_Fin_Z by lia; now rewrite Nat2Z.id.
Qed.

Lemma get_Fin_0 (l : list R) :
  l <> [] -> Num.get (map Fin l) (Fin 0) = Fin (List.nth 0 l 0).
Proof.
  intros H; apply (get_Fin_nat l 0); destruct l; [easy | cbn; lia].
Qed.

(** ** [quantile] on finite data *)

Lemma index_bounds (n : nat) (p : R) :
  (0 < n)%nat -> 0 < p < 1 ->
  0 <= p * (INR n - 1) <= INR n - 1 /\
  (0 <= Zfloor (p * (INR n - 1)) < Z.of_nat n)%Z /\
  (0 <= Zceil (p * (INR n - 1)) < Z.of_nat n)%Z.
Proof.
  intros Hn Hp.
  assert (Hn1 : 1 <= INR n) by (apply (le_INR 1); lia).
  assert (Hi : 0 <= p * (INR n - 1) <= INR n - 1) by nra.
  split; [exact Hi |].
  pose proof (Zfloor_bound (p * (INR n - 1))) as Hf.
  pose proof (Zceil_bound (p * (INR n - 1))) as Hc.
  rewrite INR_IZR_INZ in *.
  split; split.
  - apply (Zfloor_lub 0); lra.
  - apply lt_IZR; lra.
  - apply le_IZR; apply Rnot_lt_le; intros Hlt.
    assert (IZR (Zceil (p * (IZR (Z.of_nat n) - 1))) <= -1).
    { apply (IZR_le _ (-1)); apply lt_IZR in Hlt; lia. }
    lra.
  - apply lt_IZR.
    assert (Zceil (p * (IZR (Z.of_nat n) - 1)) <= Z.of_nat n - 1)%Z.
    { rewrite <- (Zceil_IZR (Z.of_nat n - 1)); apply Zceil_le.
      rewrite minus_IZR; lra. }
    apply IZR_le in H; rewrite minus_IZR in H; lra.
Qed.

Lemma quantile_Fin (l : list R) (p : R) :
  l <> [] -> quantile (map Fin l) (Fin p) = Fin (quantileR l p).
Proof.
  intros Hl.
  assert (Hn : (0 < List.length l)%nat) by (destruct l; [easy | cbn; lia]).
  unfold quantile, quantileR.
  rewrite length_map_Fin.
  cbn [Num.eq Num.le Num.ge Num.sub Num.neg Num.add Num.mul Math.floor Math.ceil].
  rewrite Reqb_false by (apply not_0_INR; lia).
  unfold Rleb at 1; destruct (Rle_dec p 0) as [Hp0 | Hp0].
  { now apply get_Fin_0. }
  unfold Rleb at 1; destruct (Rle_dec 1 p) as [Hp1 | Hp1].
  { replace (INR (List.length l) + - (1)) with (INR (List.length l - 1)).
    - apply get_Fin_nat; lia.
    - rewrite minus_INR by lia; cbn; lra. }
  replace (INR (List.length l) + - (1)) with (INR (List.length l) - 1) by lra.
  destruct (index_bounds (List.length l) p Hn) as (_ & Hf & Hc); [lra |].
  rewrite !get_Fin_Z by assumption.
  cbn [Num.mul Num.add Num.neg]. unfold interpolate.
  f_equal; lra.
Qed.

(** ** Order properties of the interpolated quantile *)

Section Interpolation.

Variable l : list R.
Hypothesis l_ascending : ascending l.

Lemma floor_ceil_index (i : R) :
  0 <= i <= INR (List.length l) - 1 ->
  (0 <= Zfloor i <= Zceil i)%Z /\ (Zceil i < Z.of_nat (List.length l))%Z /\
  (Zceil i <= Zfloor i + 1)%Z.
Proof.
  intros Hi.
  pose proof (Zfloor_bound i) as Hf.
  pose proof (Zceil_bound i) as Hc.
  rewrite INR_IZR_INZ in Hi.
  assert (H0 : (0 <= Zfloor i)%Z) by (apply (Zfloor_lub 0); lra).
  assert (H1 : (Zfloor i <= Zceil i)%Z) by (apply le_IZR; lra).
  assert (H2 : (Zceil i < Z.of_nat (List.length l) + 1)%Z)
    by (apply lt_IZR; rewrite plus_IZR; lra).
  assert (H3 : (Zceil i < Zfloor i + 2)%Z)
    by (apply lt_IZR; rewrite plus_IZR; lra).
  assert (H4 : Zceil i <> Z.of_nat (List.length l)).
  { intros E; rewrite E in Hc; lra. }
  lia.
Qed.

Lemma interpolate_between (i : R) :
  0 <= i <= INR (List.length l) - 1 ->
  List.nth (Z.to_nat (Zfloor i)) l 0 <= interpolate l i
  <= List.nth (Z.to_nat (Zceil i)) l 0.
Proof.
  intros Hi.
  destruct (floor_ceil_index i Hi) as (Hf & Hc & Hfc).
  pose proof (Zfloor_bound i) as Hb.
  assert (Hab : List.nth (Z.to_nat (Zfloor i)) l 0
                <= List.nth (Z.to_nat (Zceil i)) l 0)
    by (apply l_ascending; lia).
  unfold interpolate; cbv zeta.
  set (a := List.nth (Z.to_nat (Zfloor i)) l 0) in *.
  set (b := List.nth (Z.to_nat (Zceil i)) l 0) in *.
  split; nra.
Qed.

Lemma interpolate_mono (i j : R) :
  0 <= i -> i <= j -> j <= INR (List.length l) - 1 -> interpolate l i <= interpolate l j.
Proof.
  intros H0 Hij Hj.
  assert (Hi' : 0 <= i <= INR (List.length l) - 1) by lra.
  assert (Hj' : 0 <= j <= INR (List.length l) - 1) by lra.
  destruct (floor_ceil_index i Hi') as (Hfi & Hci & Hfci).
  destruct (floor_ceil_index j Hj') as (Hfj & Hcj & Hfcj).
  pose proof (interpolate_between i Hi') as Bi.
  pose proof (interpolate_between j Hj') as Bj.
  destruct (Z_le_gt_dec (Zceil i) (Zfloor j)) as [Hle | Hgt].
  - assert (List.nth (Z.to_nat (Zceil i)) l 0
            <= List.nth (Z.to_nat (Zfloor j)) l 0)
      by (apply l_ascending; lia).
    lra.
  - pose proof (Zfloor_le i j Hij) as Hff.
    assert (Efj : Zfloor j = Zfloor i) by lia.
    assert (Eci : Zceil i = (Zfloor i + 1)%Z) by lia.
    pose proof (Zfloor_bound i) as Fbi.
    pose proof (Zfloor_bound j) as Fbj.
    pose proof (Zceil_bound i) as Cbi.
    rewrite Eci, plus_IZR in Cbi. rewrite Efj in Fbj.
    assert (Ecj : Zceil j = (Zfloor i + 1)%Z).
    { apply Zceil_eq; rewrite plus_IZR; lra. }
    assert (Hab : List.nth (Z.to_nat (Zfloor i)) l 0
                  <= List.nth (Z.to_nat (Zfloor i + 1)) l 0)
      by (apply l_ascending; lia).
    unfold interpolate; cbv zeta.
    rewrite Ecj, Eci, Efj.
    set (a := List.nth (Z.to_nat (Zfloor i)) l 0) in *.
    set (b := List.nth (Z.to_nat (Zfloor i + 1)) l 0) in *.
    nra.
Qed.

Hypothesis l_nonempty : l <> [].

Lemma n_pos : (0 < List.length l)%nat.
Proof. destruct l; [easy | cbn; lia]. Qed.

Lemma quantileR_bounds (p : R) :
  List.nth 0 l 0 <= quantileR l p <= List.nth (List.length l - 1) l 0.
Proof.
  pose proof n_pos as Hn.
  assert (H0n : List.nth 0 l 0 <= List.nth (List.length l - 1) l 0)
    by (apply l_ascending; lia).
  unfold quantileR.
  destruct (Rle_dec p 0) as [Hp0 | Hp0]; [lra |].
  destruct (Rle_dec 1 p) as [Hp1 | Hp1]; [lra |].
  assert (Hp : 0 < p < 1) by lra.
  pose proof (index_bounds (List.length l) p Hn Hp) as (Hi & Hf & Hc).
  pose proof (interpolate_between _ Hi) as B.
  assert (List.nth 0 l 0 <= List.nth (Z.to_nat (Zfloor (p * (INR (List.length l) - 1)))) l 0)
    by (apply l_ascending; lia).
  assert (List.nth (Z.to_nat (Zceil (p * (INR (List.length l) - 1)))) l 0
          <= List.nth (List.length l - 1) l 0)
    by (apply l_ascending; lia).
  lra.
Qed.

Lemma quantileR_mono (p q : R) :
  p <= q -> quantileR l p <= quantileR l q.
Proof.
  intros Hpq.
  pose proof n_pos as Hn.
  pose proof (quantileR_bounds p) as Bp.
  pose proof (quantileR_bounds q) as Bq.
  unfold quantileR in *.
  destruct (Rle_dec p 0) as [Hp0 | Hp0]; [lra |].
  destruct (Rle_dec q 0) as [Hq0 | Hq0]; [lra |].
  destruct (Rle_dec 1 q) as [Hq1 | Hq1];
    [destruct (Rle_dec 1 p) as [Hp1 | Hp1]; lra |].
  destruct (Rle_dec 1 p) as [Hp1 | Hp1]; [lra |].
  assert (Hn1 : 1 <= INR (List.length l)) by (apply (le_INR 1); lia).
  apply interpolate_mono; nra.
Qed.

End Interpolation.

(** ** Clamping and range of [quantile]; [computeVaR] at full confidence *)

Lemma get_Fin_last (l : list R) :
  l <> [] ->
  Num.get (map Fin l) (Num.sub (Num.length (map Fin l)) (Fin 1))
  = Fin (List.nth (List.length l - 1) l 0).
Proof.
  intros Hl.
  assert (Hn : (0 < List.length l)%nat) by (destruct l; [easy | cbn; lia]).
  rewrite length_map_Fin; cbn [Num.sub Num.neg Num.add].
  replace (INR (List.length l) + - (1)) with (INR (List.length l - 1)).
  - apply get_Fin_nat; lia.
  - rewrite minus_INR by lia; cbn; lra.
Qed.




(** ** The sort *)

Lemma insert_Fin (x : R) (l : list R) :
  insert (Fin x) (map Fin l) = map Fin (insertR x l).
Proof.
  induction l as [| y l IH]; [reflexivity |].
  cbn [map insert insertR Num.gt Num.sub Num.neg Num.add Num.lt].
  change (x + - y) with (x - y).
  destruct (Rltb 0 (x - y)); [| reflexivity].
  cbn [map]; now rewrite IH.
Qed.

Lemma sort_asc_Fin (l : list R) : sort_asc (map Fin l) = map Fin (sortR l).
Proof.
  induction l as [| x l IH]; [reflexivity |].
  cbn [map sort_asc sortR fold_right] in *.
  fold (sort_asc (map Fin l)); fold (sortR l).
  now rewrite IH, insert_Fin.
Qed.

Lemma insertR_perm (x : R) (l : list R) : Permutation (x :: l) (insertR x l).
Proof.
  induction l as [| y l IH]; cbn [insertR]; [apply Permutation_refl |].
  destruct (Rltb 0 (x - y)); [| apply Permutation_refl].
  eapply perm_trans; [apply perm_swap | now apply perm_skip].
Qed.

Lemma sortR_perm (l : list R) : Permutation l (sortR l).
Proof.
  induction l as [| x l IH]; [apply perm_nil |].
  cbn [sortR fold_right]; fold (sortR l).
  eapply perm_trans; [apply perm_skip, IH | apply insertR_perm].
Qed.

Lemma sortR_length (l : list R) : List.length (sortR l) = List.length l.
Proof. symmetry; apply Permutation_length, sortR_perm. Qed.

Lemma sortR_nonempty (l : list R) : l <> [] -> sortR l <> [].
Proof.
  intros Hl E. apply Hl, length_zero_iff_nil.
  now rewrite <- sortR_length, E.
Qed.

Lemma insertR_sorted (x : R) (l : list R) :
  Sorted Rle l -> Sorted Rle (insertR x l).
Proof.
  induction l as [| y l IH]; intros Hs; cbn [insertR].
  - repeat constructor.
  - destruct (Rltb 0 (x - y)) eqn:E.
    + inversion Hs as [| ? ? Hs' Hhd]; subst.
      constructor; [now apply IH |].
      apply Rltb_iff in E.
      destruct l as [| z l]; cbn [insertR].
      * constructor; lra.
      * destruct (Rltb 0 (x - z)); constructor; [| lra].
        now inversion Hhd.
    + constructor; [assumption |].
      constructor. unfold Rltb in E; destruct (Rlt_dec 0 (x - y)); [easy | lra].
Qed.

Lemma sortR_sorted (l : list R) : Sorted Rle (sortR l).
Proof.
  induction l as [| x l IH]; [constructor |].
  cbn [sortR fold_right]; now apply insertR_sorted.
Qed.

Lemma StronglySorted_ascending (l : list R) :
  StronglySorted Rle l -> ascending l.
Proof.
  induction 1 as [| x l Hs IH Hall]; intros i j Hij Hj; cbn in Hj; [lia |].
  destruct j as [| j].
  - replace i with 0%nat by lia; lra.
  - destruct i as [| i]; cbn [List.nth].
    + rewrite Forall_forall in Hall; apply Hall, nth_In; lia.
    + apply IH; lia.
Qed.

Lemma Sorted_ascending (l : list R) : Sorted Rle l -> ascending l.
Proof.
  intros Hs; apply StronglySorted_ascending, Sorted_StronglySorted;
    [intros x y z; apply Rle_trans | exact Hs].
Qed.

Lemma sortR_ascending (l : list R) : ascending (sortR l).
Proof. apply Sorted_ascending, sortR_sorted. Qed.




(** ** [computeVaR] and [computeCVaR] on finite data *)

Lemma computeVaR_Fin (l : list R) (c : R) :
  l <> [] -> computeVaR (map Fin l) (Fin c) = Fin (- quantileR l (1 - c)).
Proof.
  intros Hl; unfold computeVaR; cbn [Num.sub Num.neg Num.add].
  now rewrite quantile_Fin.
Qed.






(** ** VaR at 99% against VaR at 95% *)


Lemma computeVaR_99_95 (sorted : list R) :
  sorted <> [] -> ascending sorted ->
  let var99 := computeVaR (map Fin sorted) (Fin 0.99) in
  let var95 := computeVaR (map Fin sorted) (Fin 0.95) in
  Num.ge var99 var95 = true /\
  (Num.ge var95 (Fin 0) = true ->
   Num.ge (Math.abs var99) (Math.abs var95) = true).
Proof.
  intros Hne Hasc var99 var95; unfold var99, var95.
  rewrite !computeVaR_Fin by assumption.
  assert (Hq : quantileR sorted (1 - 0.99) <= quantileR sorted (1 - 0.95))
    by (apply quantileR_mono; [assumption | assumption | lra]).
  cbn [Num.ge Num.le Math.abs]; split.
  - apply Rleb_true; lra.
  - intros H0; apply Rleb_iff in H0; apply Rleb_true.
    rewrite !Rabs_right by lra; lra.
Qed.



(** The same order holds between the [var99] and [var95] fields of
    [computeTailMetrics], which sorts its input itself. *)
Lemma tailMetrics_var99_at_least_var95 (data : list R) :
  data <> [] ->
  let tm := computeTailMetrics (map Fin data) in
  Num.ge (TailMetrics.var99 tm) (TailMetrics.var95 tm) = true.
Proof.
  intros Hne tm; unfold tm, computeTailMetrics; cbn [TailMetrics.var99 TailMetrics.var95].
  rewrite sort_asc_Fin.
  apply computeVaR_99_95; [now apply sortR_nonempty | apply sortR_ascending].
Qed.

(** ** Welford's recurrence against the two-pass formulas *)

Lemma sumR_nil : sumR [] = 0.
Proof. reflexivity. Qed.

Lemma devsqR_nil (c : R) : devsqR c [] = 0.
Proof. reflexivity. Qed.

Lemma sumR_cons (x : R) (l : list R) : sumR (x :: l) = x + sumR l.
Proof. reflexivity. Qed.

Lemma devsqR_cons (c x : R) (l : list R) :
  devsqR c (x :: l) = (x - c) * (x - c) + devsqR c l.
Proof. reflexivity. Qed.

Lemma sumR_app (l1 l2 : list R) : sumR (l1 ++ l2) = sumR l1 + sumR l2.
Proof.
  induction l1 as [| x l1 IH].
  - rewrite sumR_nil; cbn [app]; lra.
  - rewrite <- app_comm_cons, !sumR_cons, IH; lra.
Qed.

Lemma devsqR_app (c : R) (l1 l2 : list R) :
  devsqR c (l1 ++ l2) = devsqR c l1 + devsqR c l2.
Proof.
  induction l1 as [| x l1 IH].
  - rewrite devsqR_nil; cbn [app]; lra.
  - rewrite <- app_comm_cons, !devsqR_cons, IH; lra.
Qed.

(** Moving the centre of the squared deviations. *)
Lemma devsqR_shift (c d : R) (l : list R) :
  devsqR c l
  = devsqR d l + 2 * (d - c) * (sumR l - INR (List.length l) * d)
    + INR (List.length l) * ((d - c) * (d - c)).
Proof.
  induction l as [| x l IH].
  - rewrite !devsqR_nil, sumR_nil; cbn [List.length INR]; lra.
  - rewrite !devsqR_cons, sumR_cons.
    change (List.length (x :: l)) with (S (List.length l)).
    rewrite S_INR, IH; ring.
Qed.

Lemma meanR_times_length (l : list R) :
  INR (List.length l) * meanR l = sumR l.
Proof.
  unfold meanR; destruct l as [| x l].
  - rewrite sumR_nil; cbn [List.length INR]; lra.
  - assert (INR (List.length (x :: l)) <> 0) by (apply not_0_INR; cbn; lia).
    field; assumption.
Qed.

Lemma meanR_snoc (l : list R) (x : R) :
  meanR (l ++ [x])
  = meanR l + (x - meanR l) / (INR (List.length l) + 1).
Proof.
  pose proof (meanR_times_length l) as Hm.
  pose proof (pos_INR (List.length l)) as Hn.
  unfold meanR at 1.
  rewrite sumR_app, length_app, plus_INR, sumR_cons, sumR_nil.
  cbn [List.length INR].
  rewrite <- Hm; field; lra.
Qed.

Lemma devsqR_snoc (l : list R) (x : R) :
  devsqR (meanR (l ++ [x])) (l ++ [x])
  = devsqR (meanR l) l + (x - meanR l) * (x - meanR (l ++ [x])).
Proof.
  pose proof (meanR_times_length l) as Hm.
  pose proof (pos_INR (List.length l)) as Hn.
  rewrite devsqR_app, (devsqR_shift (meanR (l ++ [x])) (meanR l) l).
  rewrite devsqR_cons, devsqR_nil.
  rewrite meanR_snoc, <- Hm; field; lra.
Qed.

Lemma welford_step_Fin (k : nat) (pre : list R) (x : R) :
  List.length pre = k ->
  welford_step (Fin (INR k), Fin (meanR pre), Fin (devsqR (meanR pre) pre))
               (Fin x)
  = (Fin (INR (S k)), Fin (meanR (pre ++ [x])),
     Fin (devsqR (meanR (pre ++ [x])) (pre ++ [x]))).
Proof.
  intros Hk. unfold welford_step.
  cbn [Num.add Num.sub Num.neg Num.mul].
  pose proof (pos_INR k) as Hpos.
  rewrite div_Fin by lra.
  cbn [Num.add Num.sub Num.neg Num.mul].
  rewrite devsqR_snoc, meanR_snoc, Hk, S_INR.
  repeat f_equal; lra.
Qed.

Lemma welford_fold_Fin (l pre : list R) :
  fold_left welford_step (map Fin l)
            (Fin (INR (List.length pre)), Fin (meanR pre),
             Fin (devsqR (meanR pre) pre))
  = (Fin (INR (List.length (pre ++ l))), Fin (meanR (pre ++ l)),
     Fin (devsqR (meanR (pre ++ l)) (pre ++ l))).
Proof.
  revert pre; induction l as [| x l IH]; intros pre.
  - now rewrite app_nil_r.
  - cbn [map fold_left].
    rewrite (welford_step_Fin (List.length pre) pre x eq_refl).
    replace (S (List.length pre)) with (List.length (pre ++ [x]))
      by (rewrite length_app; cbn; lia).
    rewrite IH, <- app_assoc; reflexivity.
Qed.

Lemma welfordAlgorithm_Fin (l : list R) :
  welfordAlgorithm (map Fin l)
  = {| Welford.mean := Fin (meanR l);
       Welford.variance :=
         if Rltb 1 (INR (List.length l))
         then Fin (devsqR (meanR l) l / (INR (List.length l) - 1))
         else Fin 0;
       Welford.m2 := Fin (devsqR (meanR l) l) |}.
Proof.
  unfold welfordAlgorithm.
  assert (E0 : (Fin 0, Fin 0, Fin 0)
               = (Fin (INR (List.length (@nil R))), Fin (meanR []),
                  Fin (devsqR (meanR []) []))).
  { unfold meanR; rewrite devsqR_nil, sumR_nil; cbn [List.length INR].
    repeat f_equal; lra. }
  rewrite E0, welford_fold_Fin; cbn [app].
  cbn [Num.gt Num.lt Num.sub Num.neg Num.add].
  destruct (Rltb 1 (INR (List.length l))) eqn:E; [| reflexivity].
  apply Rltb_iff in E. rewrite div_Fin by lra. reflexivity.
Qed.

Lemma fold_sum_Fin (l : list R) (a : R) :
  fold_left (fun sum x => Num.add sum x) (map Fin l) (Fin a)
  = Fin (a + sumR l).
Proof.
  revert a; induction l as [| x l IH]; intros a; cbn [map fold_left].
  - rewrite sumR_nil; f_equal; lra.
  - cbn [Num.add]; rewrite IH, sumR_cons; f_equal; lra.
Qed.

Lemma naiveMean_Fin (l : list R) :
  l <> [] -> naiveMean (map Fin l) = Fin (meanR l).
Proof.
  intros Hl; unfold naiveMean.
  rewrite fold_sum_Fin, length_map_Fin, div_Fin.
  - unfold meanR; f_equal; lra.
  - apply not_0_INR; destruct l; [easy | cbn; lia].
Qed.

Lemma fold_devsq_Fin (c : R) (l : list R) (a : R) :
  fold_left
    (fun sum x =>
       Num.add sum (Num.mul (Num.sub x (Fin c)) (Num.sub x (Fin c))))
    (map Fin l) (Fin a)
  = Fin (a + devsqR c l).
Proof.
  revert a; induction l as [| x l IH]; intros a; cbn [map fold_left].
  - rewrite devsqR_nil; f_equal; lra.
  - cbn [Num.add Num.sub Num.neg Num.mul]; rewrite IH, devsqR_cons.
    f_equal; lra.
Qed.

Lemma naiveVariance_Fin (l : list R) :
  l <> [] ->
  naiveVariance (map Fin l)
  = if Rltb 1 (INR (List.length l))
    then Fin (devsqR (meanR l) l / (INR (List.length l) - 1))
    else Fin 0.
Proof.
  intros Hl; unfold naiveVariance.
  rewrite naiveMean_Fin, length_map_Fin by assumption.
  cbn [Num.gt Num.lt].
  destruct (Rltb 1 (INR (List.length l))) eqn:E; [| reflexivity].
  apply Rltb_iff in E.
  rewrite fold_devsq_Fin.
  cbn [Num.sub Num.neg Num.add]; rewrite div_Fin by lra.
  f_equal; unfold Rminus; f_equal; lra.
Qed.

Lemma computeSummaryStats_nonempty (data : list number) :
  data <> [] -> exists s, computeSummaryStats data = Ok s.
Proof.
  intros Hne; unfold computeSummaryStats, Num.length, of_nat.
  cbn [Num.eq]. rewrite Reqb_false.
  - eexists; reflexivity.
  - apply not_0_INR; destruct data; [easy | cbn; lia].
Qed.

(** ** [computeSummaryStats] on finite data *)

Lemma computeSummaryStats_Fin (l : list R) :
  l <> [] ->
  exists s : SummaryStats.t,
    computeSummaryStats (map Fin l) = Ok s /\
    SummaryStats.mean s = Welford.mean (welfordAlgorithm (map Fin l)) /\
    SummaryStats.variance s = Welford.variance (welfordAlgorithm (map Fin l)) /\
    SummaryStats.min s = Fin (List.nth 0 (sortR l) 0) /\
    SummaryStats.max s = Fin (List.nth (List.length (sortR l) - 1) (sortR l) 0) /\
    SummaryStats.p5 s = Fin (quantileR (sortR l) 0.05) /\
    SummaryStats.p25 s = Fin (quantileR (sortR l) 0.25) /\
    SummaryStats.median s = Fin (quantileR (sortR l) 0.5) /\
    SummaryStats.p75 s = Fin (quantileR (sortR l) 0.75) /\
    SummaryStats.p95 s = Fin (quantileR (sortR l) 0.95).
Proof.
  intros Hl.
  pose proof (sortR_nonempty l Hl) as Hs.
  unfold computeSummaryStats.
  rewrite length_map_Fin; cbn [Num.eq].
  rewrite Reqb_false
    by (apply not_0_INR; destruct l; [easy | cbn; lia]).
  eexists; split; [reflexivity |].
  cbn [SummaryStats.mean SummaryStats.variance SummaryStats.min
       SummaryStats.max SummaryStats.p5 SummaryStats.p25 SummaryStats.median
       SummaryStats.p75 SummaryStats.p95].
  rewrite sort_asc_Fin, !quantile_Fin, get_Fin_0 by assumption.
  rewrite <- (sortR_length l), <- length_map_Fin, get_Fin_last by assumption.
  repeat split; reflexivity.
Qed.



(** C4. On every non-empty sample the mean and the variance that
    [computeSummaryStats] obtains from Welford's single-pass recurrence
    are the naive two-pass values: the mean is [sum(x) / n] and the
    variance is [sum((x - mean)^2) / (n - 1)] when [n > 1] and 0
    otherwise (exact arithmetic). *)
Theorem welford_agrees_with_two_pass (data : list R) :
  data <> [] ->
  let w := welfordAlgorithm (map Fin data) in
  let n := INR (List.length data) in
  (Welford.mean w = naiveMean (map Fin data) /\
   Welford.variance w = naiveVariance (map Fin data)) /\
  (Welford.mean w = Fin (sumR data / n) /\
   Welford.variance w
   = Fin (if Rlt_dec 1 n
          then devsqR (sumR data / n) data / (n - 1)
          else 0)) /\
  exists s : SummaryStats.t,
    computeSummaryStats (map Fin data) = Ok s /\
    SummaryStats.mean s = Welford.mean w /\
    SummaryStats.variance s = Welford.variance w.
Proof.
  intros Hne w n; unfold w, n.
  destruct (computeSummaryStats_Fin data Hne) as (s & Hs & Hmean & Hvar & _).
  rewrite welfordAlgorithm_Fin in *.
  rewrite naiveMean_Fin, naiveVariance_Fin by assumption.
  cbn [Welford.mean Welford.variance] in *; unfold Rltb in *.
  repeat split; try reflexivity.
  - destruct (Rlt_dec 1 (INR (List.length data))); reflexivity.
  - exists s; repeat split; assumption.
Qed.

Lemma welford_agrees_with_two_pass_witness :
  [2; 4; 9] <> [] /\
  Welford.mean (welfordAlgorithm (map Fin [2; 4; 9]))
  = naiveMean (map Fin [2; 4; 9]) /\
  Welford.variance (welfordAlgorithm (map Fin [2; 4; 9]))
  = naiveVariance (map Fin [2; 4; 9]).
Proof.
  assert (Hne : [2; 4; 9] <> []) by discriminate.
  split; [exact Hne |].
  exact (proj1 (welford_agrees_with_two_pass [2; 4; 9] Hne)).
Defined.

(** C9. [computeSummaryStats] on the empty sample throws its error
    ("Cannot compute statistics on empty data") instead of returning a
    default summary, and on every non-empty sample it returns a
    summary. *)
Theorem summary_fails_only_on_empty :
  computeSummaryStats [] = Throw "Cannot compute statistics on empty data" /\
  (forall s, computeSummaryStats [] <> Ok s) /\
  (forall data : list number,
      data <> [] -> exists s, computeSummaryStats data = Ok s).
Proof.
  assert (E : computeSummaryStats []
              = Throw "Cannot compute statistics on empty data").
  { unfold computeSummaryStats, Num.length, of_nat; cbn [List.length INR Num.eq].
    now rewrite Reqb_true. }
  split; [exact E | split].
  - intros s; rewrite E; discriminate.
  - exact computeSummaryStats_nonempty.
Qed.

Lemma summary_fails_only_on_empty_witness :
  [Fin 1; NaN] <> [] /\ exists s, computeSummaryStats [Fin 1; NaN] = Ok s.
Proof.
  assert (Hne : [Fin 1; NaN] <> []) by discriminate.
  split; [exact Hne |].
  exact (proj2 (proj2 summary_fails_only_on_empty) [Fin 1; NaN] Hne).
Defined.

(** ** The Hill estimators on small samples *)

Lemma max_Fin (a b : R) : Math.max (Fin a) (Fin b) = Fin (Rmax a b).
Proof.
  unfold Math.max, Num.lt, Rltb, Rmax.
  destruct (Rlt_dec a b), (Rle_dec a b); try reflexivity; try lra.
  f_equal; lra.
Qed.

Lemma min_Fin (a b : R) : Math.min (Fin a) (Fin b) = Fin (Rmin a b).
Proof.
  unfold Math.min, Num.lt, Rltb, Rmin.
  destruct (Rlt_dec b a), (Rle_dec a b); try reflexivity; lra.
Qed.

Lemma sqrt_Fin (x : R) : 0 <= x -> Math.sqrt (Fin x) = Fin (R_sqrt.sqrt x).
Proof. intros H; unfold Math.sqrt; now rewrite Rltb_false. Qed.

Lemma cappedTailCount_Fin (n : nat) :
  cappedTailCount (of_nat n)
  = Fin (Rmin (Rmax (Rmax (IZR (Zfloor (R_sqrt.sqrt (INR n))))
                          (IZR (Zfloor (0.05 * INR n))))
                    20)
              (IZR (Zfloor (0.2 * INR n)))).
Proof.
  unfold cappedTailCount, of_nat.
  rewrite sqrt_Fin by apply pos_INR.
  cbn [Math.floor Num.mul].
  now rewrite !max_Fin, min_Fin.
Qed.

Lemma hill_kActual (sorted : list number) :
  Math.min
    (Math.max
       (Math.max (Math.floor (Math.sqrt (Num.length sorted)))
                 (Math.floor (Num.mul (Fin 0.05) (Num.length sorted))))
       (Fin 20))
    (Math.floor (Num.mul (Num.length sorted) (Fin 0.2)))
  = cappedTailCount (Num.length sorted).
Proof.
  unfold cappedTailCount, Num.length, of_nat; cbn [Num.mul].
  now rewrite (Rmult_comm (INR (List.length sorted)) 0.2).
Qed.

Lemma hill_nan_below_five (sorted : list number) :
  Num.lt (cappedTailCount (Num.length sorted)) (Fin 5) = true ->
  computeHillIndex sorted = NaN /\ computeLeftTailIndex sorted = NaN.
Proof.
  intros H; unfold computeHillIndex, computeLeftTailIndex.
  now rewrite hill_kActual, H.
Qed.

Lemma cappedTailCount_small (n : nat) :
  (n < 25)%nat -> Num.lt (cappedTailCount (of_nat n)) (Fin 5) = true.
Proof.
  intros Hn; rewrite cappedTailCount_Fin; cbn [Num.lt].
  apply Rltb_true.
  assert (Hf : (Zfloor (0.2 * INR n) <= 4)%Z).
  { apply Z.lt_succ_r, lt_IZR.
    pose proof (Zfloor_bound (0.2 * INR n)) as B.
    assert (INR n <= 24) by (rewrite INR_IZR_INZ; apply (IZR_le _ 24); lia).
    change (IZR (Z.succ 4)) with 5; lra. }
  apply IZR_le in Hf.
  eapply Rle_lt_trans; [apply Rmin_r | lra].
Qed.

Lemma cappedTailCount_large (n : nat) :
  (25 <= n)%nat -> Num.lt (cappedTailCount (of_nat n)) (Fin 5) = false.
Proof.
  intros Hn; rewrite cappedTailCount_Fin; cbn [Num.lt].
  apply Rltb_false.
  assert (Hf : (5 <= Zfloor (0.2 * INR n))%Z).
  { apply Zfloor_lub.
    assert (25 <= INR n) by (rewrite INR_IZR_INZ; apply (IZR_le 25); lia).
    lra. }
  apply IZR_le in Hf.
  apply Rmin_glb; [| lra].
  eapply Rle_trans; [| apply Rmax_r]; lra.
Qed.

(** C8. Whenever the capped tail count
    [min(max(floor(sqrt(n)), floor(0.05 n), 20), floor(0.2 n))] is below
    5, both [computeHillIndex] and [computeLeftTailIndex] return [NaN];
    this is the case exactly for the samples of fewer than 25 points,
    those of 10 points among them. *)
Theorem hill_index_nan_on_small_samples (sorted : list number) :
  (Num.lt (cappedTailCount (Num.length sorted)) (Fin 5) = true ->
   computeHillIndex sorted = NaN /\ computeLeftTailIndex sorted = NaN) /\
  (Num.lt (cappedTailCount (Num.length sorted)) (Fin 5) = true <->
   (List.length sorted < 25)%nat) /\
  (List.length sorted = 10%nat ->
   computeHillIndex sorted = NaN /\ computeLeftTailIndex sorted = NaN).
Proof.
  split; [apply hill_nan_below_five | split].
  - unfold Num.length; split.
    + intros H. destruct (Nat.lt_ge_cases (List.length sorted) 25) as [| Hge];
        [assumption |].
      rewrite (cappedTailCount_large _ Hge) in H; discriminate.
    + apply cappedTailCount_small.
  - intros H10; apply hill_nan_below_five.
    unfold Num.length; apply cappedTailCount_small; lia.
Qed.

Lemma hill_index_nan_on_small_samples_witness :
  let sorted := map Fin [1; 2; 3; 4; 5; 6; 7; 8; 9; 10] in
  List.length sorted = 10%nat /\
  computeHillIndex sorted = NaN /\ computeLeftTailIndex sorted = NaN.
Proof.
  intros sorted.
  assert (H10 : List.length sorted = 10%nat) by reflexivity.
  split; [exact H10 |].
  exact (proj2 (proj2 (hill_index_nan_on_small_samples sorted)) H10).
Defined.

(** ** Termination and result of the golden-section search *)




Section GoldenSection.

Variable f : number -> number.
Variable tol : R.


End GoldenSection.



(** ** [erf] and [normCDF]: finite values and range *)

Lemma sq_nonneg (x : R) : 0 <= x * x.
Proof. nra. Qed.

Lemma erf_poly_nonneg (t : R) : 0 <= t <= 1 -> 0 <= erf_poly t.
Proof.
  intros Ht; unfold erf_poly.
  assert (Hq : 0.9 <= (1.061405429 * t + -1.453152027) * t + 1.421413741).
  { pose proof (sq_nonneg (t - 0.6845)); lra. }
  assert (Hh : 0 <= (((1.061405429 * t + -1.453152027) * t + 1.421413741) * t
                     + -0.284496736) * t + 0.254829592).
  { pose proof (sq_nonneg (t - 0.158)).
    assert (0.9 * (t * t)
            <= ((1.061405429 * t + -1.453152027) * t + 1.421413741) * t * t).
    { assert (0 <= t * t) by apply sq_nonneg.
      rewrite (Rmult_assoc _ t t).
      apply Rmult_le_compat_r; assumption. }
    lra. }
  apply Rmult_le_pos; lra.
Qed.

Lemma erf_poly_le_1 (t : R) : 0 <= t <= 1 -> erf_poly t <= 1.
Proof.
  intros Ht; unfold erf_poly.
  set (q := 0.999999999 + 0.745170407 * t + 1.029667143 * (t * t)
            - 0.391746598 * (t * t * t) + 1.061405429 * (t * t * t * t)).
  assert (E : 1 - (((((1.061405429 * t + -1.453152027) * t) + 1.421413741) * t
                    + -0.284496736) * t + 0.254829592) * t
              = (1 - t) * q + 0.000000001) by (unfold q; lra).
  assert (H2 : 0 <= t * t) by apply sq_nonneg.
  assert (H3 : t * t * t <= t * t).
  { rewrite <- (Rmult_1_r (t * t)) at 2. apply Rmult_le_compat_l; lra. }
  assert (H4 : 0 <= t * t * t * t).
  { replace (t * t * t * t) with ((t * t) * (t * t)) by ring.
    apply sq_nonneg. }
  assert (0 <= (1 - t) * q) by (apply Rmult_le_pos; unfold q; lra).
  lra.
Qed.

Lemma exp_nonpos_le_1 (y : R) : y <= 0 -> Rtrigo_def.exp y <= 1.
Proof.
  intros [Hlt | Heq].
  - rewrite <- exp_0; left; now apply exp_increasing.
  - subst; rewrite exp_0; lra.
Qed.

Lemma erf_t_range (x : R) : 0 <= x -> 0 < 1 / (1 + 0.3275911 * x) <= 1.
Proof.
  intros Hx.
  assert (Hd : 1 <= 1 + 0.3275911 * x) by lra.
  split.
  - apply Rdiv_lt_0_compat; lra.
  - unfold Rdiv; rewrite Rmult_1_l, <- Rinv_1.
    apply Rinv_le_contravar; lra.
Qed.

Lemma erfR_range (x : R) : -1 <= erfR x <= 1.
Proof.
  unfold erfR; cbv zeta.
  pose proof (Rabs_pos x) as Hx.
  pose proof (erf_t_range (Rabs x) Hx) as Ht.
  set (t := 1 / (1 + 0.3275911 * Rabs x)) in *.
  assert (Hp0 : 0 <= erf_poly t) by (apply erf_poly_nonneg; lra).
  assert (Hp1 : erf_poly t <= 1) by (apply erf_poly_le_1; lra).
  assert (He0 : 0 < Rtrigo_def.exp (- Rabs x * Rabs x)) by apply exp_pos.
  assert (He1 : Rtrigo_def.exp (- Rabs x * Rabs x) <= 1).
  { apply exp_nonpos_le_1. pose proof (sq_nonneg (Rabs x)); lra. }
  assert (Hy : 0 <= erf_poly t * Rtrigo_def.exp (- Rabs x * Rabs x) <= 1).
  { split; [apply Rmult_le_pos; lra |].
    rewrite <- (Rmult_1_r 1).
    apply Rmult_le_compat; lra. }
  destruct (Rleb 0 x); lra.
Qed.

Lemma normCDFR_range (x : R) : 0 <= normCDFR x <= 1.
Proof.
  unfold normCDFR; pose proof (erfR_range (x / R_sqrt.sqrt 2)); lra.
Qed.

Lemma erf_Fin (x : R) : erf (Fin x) = Fin (erfR x).
Proof.
  unfold erf, erfR; cbv zeta.
  pose proof (Rabs_pos x) as Hx.
  cbn [Num.ge Num.le Math.abs Num.mul Num.add].
  rewrite div_Fin by lra.
  cbn [Num.neg Num.mul Num.add Math.exp Num.sub].
  destruct (Rleb 0 x); cbn [Num.mul]; f_equal; unfold erf_poly; lra.
Qed.

Lemma sqrt2_pos : 0 < R_sqrt.sqrt 2.
Proof. apply sqrt_lt_R0; lra. Qed.

Lemma normCDF_Fin (x : R) : normCDF (Fin x) = Fin (normCDFR x).
Proof.
  pose proof sqrt2_pos as Hs.
  unfold normCDF, normCDFR.
  rewrite sqrt_Fin, div_Fin, erf_Fin by lra.
  reflexivity.
Qed.

Lemma scale_inf_pos (y : R) : 0 < y -> Num.scale_inf true y = PosInf.
Proof.
  intros H; unfold Num.scale_inf.
  now rewrite Reqb_false, Rltb_true by lra.
Qed.

Lemma erf_PosInf : erf PosInf = Fin 1.
Proof.
  unfold erf; cbv zeta.
  cbn [Num.ge Num.le Math.abs Num.mul].
  rewrite scale_inf_pos by lra.
  cbn [Num.add Num.div Num.mul Num.neg Math.exp Num.sub].
  f_equal; lra.
Qed.

Lemma erf_NegInf : erf NegInf = Fin (-1).
Proof.
  unfold erf; cbv zeta.
  cbn [Num.ge Num.le Math.abs Num.mul].
  rewrite scale_inf_pos by lra.
  cbn [Num.add Num.div Num.mul Num.neg Math.exp Num.sub].
  f_equal; lra.
Qed.

(** [normCDF] returns [NaN] or a probability. *)
Lemma normCDF_range (z : number) :
  normCDF z = NaN \/ exists r : R, normCDF z = Fin r /\ 0 <= r <= 1.
Proof.
  pose proof sqrt2_pos as Hs.
  destruct z as [| | | x].
  - left; unfold normCDF; rewrite sqrt_Fin by lra; reflexivity.
  - right; exists 0. unfold normCDF; rewrite sqrt_Fin by lra.
    cbn [Num.div]; rewrite Rltb_false, erf_NegInf by lra.
    cbn [Num.add Num.mul]; split; [f_equal; lra | lra].
  - right; exists 1. unfold normCDF; rewrite sqrt_Fin by lra.
    cbn [Num.div]; rewrite Rltb_false, erf_PosInf by lra.
    cbn [Num.add Num.mul]; split; [f_equal; lra | lra].
  - right; exists (normCDFR x); split;
      [apply normCDF_Fin | apply normCDFR_range].
Qed.

(** ** [Math.max] and the maximum of a list *)

Lemma max_NegInf_l (x : number) : Math.max NegInf x = x.
Proof. destruct x; reflexivity. Qed.

Lemma max_assoc (a b c : number) :
  Math.max (Math.max a b) c = Math.max a (Math.max b c).
Proof.
  destruct a as [| | | a], b as [| | | b], c as [| | | c];
    try reflexivity;
    unfold Math.max, Num.lt; rdec; try reflexivity; try lra;
    f_equal; lra.
Qed.

Lemma fold_left_max (l : list number) (a : number) :
  fold_left Math.max l a = Math.max a (maximum l).
Proof.
  unfold maximum; revert a; induction l as [| x l IH]; intros a.
  - destruct a; reflexivity.
  - cbn [fold_left]. rewrite (IH (Math.max a x)), (IH (Math.max NegInf x)).
    now rewrite max_NegInf_l, max_assoc.
Qed.

Lemma max_zero_absorb (m : number) :
  nonneg_or_nan m -> Math.max (Fin 0) m = m.
Proof.
  intros [-> | H]; [reflexivity |].
  destruct m as [| | | m]; try discriminate; try reflexivity.
  cbn in H; apply Rleb_iff in H.
  unfold Math.max, Num.lt, Rltb.
  destruct (Rlt_dec 0 m); [reflexivity | f_equal; lra].
Qed.

Lemma nonneg_or_nan_max_l (a b : number) :
  nonneg_or_nan a -> nonneg_or_nan (Math.max a b).
Proof.
  intros [-> | H]; [left; reflexivity |].
  destruct a as [| | | a], b as [| | | b]; try discriminate;
    try (left; reflexivity); try (right; reflexivity);
    cbn in H; apply Rleb_iff in H;
    right; unfold Math.max, Num.lt, Rltb;
    try destruct (Rlt_dec a b); cbn; try reflexivity; apply Rleb_true; lra.
Qed.

Lemma nonneg_or_nan_max_r (a b : number) :
  nonneg_or_nan b -> nonneg_or_nan (Math.max a b).
Proof.
  intros [-> | H]; [left; destruct a; reflexivity |].
  destruct a as [| | | a], b as [| | | b]; try discriminate;
    try (left; reflexivity); try (right; reflexivity);
    cbn in H; apply Rleb_iff in H;
    right; unfold Math.max, Num.lt, Rltb;
    try destruct (Rlt_dec a b); cbn; try reflexivity; apply Rleb_true; lra.
Qed.

Lemma nonneg_or_nan_fold (l : list number) (a : number) :
  nonneg_or_nan a -> nonneg_or_nan (fold_left Math.max l a).
Proof.
  revert a; induction l as [| x l IH]; intros a Ha; [exact Ha |].
  cbn [fold_left]; apply IH; now apply nonneg_or_nan_max_l.
Qed.

Lemma nonneg_or_nan_maximum (l : list number) (t : number) :
  In t l -> nonneg_or_nan t -> nonneg_or_nan (maximum l).
Proof.
  unfold maximum; generalize NegInf.
  induction l as [| x l IH]; intros a Hin Ht; [destruct Hin |].
  cbn [fold_left]. destruct Hin as [-> | Hin].
  - apply nonneg_or_nan_fold; now apply nonneg_or_nan_max_r.
  - now apply IH.
Qed.

(** ** The Kolmogorov-Smirnov statistic *)

Lemma range_0_nat (n : nat) :
  Num.range (Fin 0) (Fin (INR n)) = map (fun j => Fin (0 + INR j)) (seq 0 n).
Proof.
  unfold Num.range.
  replace (INR n - 0) with (INR n) by lra.
  now rewrite INR_Zceil, Nat2Z.id.
Qed.

Lemma insert_length (x : number) (l : list number) :
  List.length (insert x l) = S (List.length l).
Proof.
  induction l as [| y l IH]; cbn [insert]; [reflexivity |].
  destruct (Num.gt (Num.sub x y) (Fin 0)); cbn [List.length]; now rewrite ?IH.
Qed.

Lemma sort_asc_length (data : list number) :
  List.length (sort_asc data) = List.length data.
Proof.
  induction data as [| x data IH]; [reflexivity |].
  cbn [sort_asc fold_right]; fold (sort_asc data).
  now rewrite insert_length, IH.
Qed.

(** The loop keeps two running maxima. *)
Lemma ks_fold (n : number) (sorted : list number) (mu sigma : number)
    (idxs : list number) (dPlus dMinus : number) :
  fold_left (ks_step n sorted mu sigma) idxs (dPlus, dMinus)
  = (fold_left Math.max (map (ks_above n sorted mu sigma) idxs) dPlus,
     fold_left Math.max (map (ks_below n sorted mu sigma) idxs) dMinus).
Proof.
  revert dPlus dMinus; induction idxs as [| i idxs IH]; intros dPlus dMinus;
    [reflexivity |].
  cbn [fold_left map]. rewrite <- IH. reflexivity.
Qed.

Lemma ks_last_term_nonneg (len : nat) (F : number) :
  (0 < len)%nat ->
  F = NaN \/ (exists r : R, F = Fin r /\ 0 <= r <= 1) ->
  nonneg_or_nan
    (Num.sub (Num.div (Num.add (Fin (0 + INR (len - 1))) (Fin 1))
                      (Fin (INR len)))
             F).
Proof.
  intros Hlen HF.
  assert (Hn : INR len <> 0) by (apply not_0_INR; lia).
  cbn [Num.add]; rewrite div_Fin by assumption.
  destruct HF as [-> | (r & -> & Hr)]; [left; reflexivity | right].
  cbn [Num.sub Num.neg Num.add Num.le]; apply Rleb_true.
  replace ((0 + INR (len - 1) + 1) / INR len) with 1; [lra |].
  rewrite minus_INR by lia; cbn [INR]; field; assumption.
Qed.

Lemma ks_first_term_nonneg (len : nat) (F : number) :
  (0 < len)%nat ->
  F = NaN \/ (exists r : R, F = Fin r /\ 0 <= r <= 1) ->
  nonneg_or_nan (Num.sub F (Num.div (Fin (0 + INR 0)) (Fin (INR len)))).
Proof.
  intros Hlen HF.
  assert (Hn : INR len <> 0) by (apply not_0_INR; lia).
  rewrite div_Fin by assumption.
  destruct HF as [-> | (r & -> & Hr)]; [left; reflexivity | right].
  cbn [Num.sub Num.neg Num.add Num.le INR]; apply Rleb_true.
  replace ((0 + 0) / INR len) with 0 by (field; assumption); lra.
Qed.

Lemma ks_statistic (data : list number) (mu sigma alpha : number) :
  data <> [] ->
  StatisticalTest.statistic (kolmogorovSmirnovTest data mu sigma alpha)
  = Math.max (ks_Dplus (sort_asc data) mu sigma)
             (ks_Dminus (sort_asc data) mu sigma).
Proof.
  intros Hne.
  assert (Hlen : (0 < List.length data)%nat)
    by (destruct data; [easy | cbn; lia]).
  unfold kolmogorovSmirnovTest, ks_Dplus, ks_Dminus.
  rewrite ks_fold; cbn [StatisticalTest.statistic].
  unfold Num.length, of_nat; rewrite sort_asc_length, range_0_nat.
  rewrite !fold_left_max, !max_zero_absorb; [reflexivity | |].
  - eapply nonneg_or_nan_maximum.
    + apply in_map, in_map, (proj2 (in_seq (List.length data) 0 0)); lia.
    + unfold ks_below; apply ks_first_term_nonneg;
        [assumption | apply normCDF_range].
  - eapply nonneg_or_nan_maximum.
    + apply in_map, in_map,
        (proj2 (in_seq (List.length data) 0 (List.length data - 1))); lia.
    + unfold ks_above; apply ks_last_term_nonneg;
        [assumption | apply normCDF_range].
Qed.

(** C6. For a sample of [n >= 1] points and parameters [mu], [sigma],
    the statistic of [kolmogorovSmirnovTest] is [max(D+, D-)], where
    over the ascending-sorted points [i = 0 .. n-1] [D+] is the maximum
    of [(i+1)/n] minus the theoretical normal CDF and [D-] is the
    maximum of the theoretical normal CDF minus [i/n]. *)
Theorem ks_statistic_is_max_of_one_sided_distances
    (data : list R) (mu sigma alpha : number) :
  data <> [] ->
  let sorted := sort_asc (map Fin data) in
  (sorted = map Fin (sortR data) /\
   ascending (sortR data) /\ Permutation data (sortR data)) /\
  StatisticalTest.statistic
    (kolmogorovSmirnovTest (map Fin data) mu sigma alpha)
  = Math.max (ks_Dplus sorted mu sigma) (ks_Dminus sorted mu sigma).
Proof.
  intros Hne sorted; split.
  - repeat split;
      [apply sort_asc_Fin | apply sortR_ascending | apply sortR_perm].
  - apply ks_statistic. destruct data; [easy | discriminate].
Qed.

(** ** Finite values *)

Lemma finite_Fin (r : R) : finite (Fin r).
Proof. now exists r. Qed.


Lemma finite_neg (a : number) : finite a -> finite (Num.neg a).
Proof. intros [x ->]; apply finite_Fin. Qed.




Lemma finite_exp (a : number) : finite a -> finite (Math.exp a).
Proof. intros [x ->]; apply finite_Fin. Qed.




Lemma pow_Fin (x : R) (k : nat) : Math.pow (Fin x) k = Fin (x ^ k).
Proof.
  induction k as [| k IH]; [reflexivity |].
  cbn [Math.pow]; rewrite IH; reflexivity.
Qed.

(** ** Clamping to [[0, 1]] *)

Lemma clamp01_Fin (v : R) :
  Math.max (Fin 0) (Math.min (Fin 1) (Fin v)) = Fin (Rmax 0 (Rmin 1 v)).
Proof. now rewrite min_Fin, max_Fin. Qed.

Lemma clamp01_finite (x : number) :
  finite x -> probability (Math.max (Fin 0) (Math.min (Fin 1) x)).
Proof.
  intros [v ->]; rewrite clamp01_Fin.
  exists (Rmax 0 (Rmin 1 v)); split; [reflexivity |].
  split; [apply Rmax_l |].
  apply Rmax_lub; [lra | apply Rmin_l].
Qed.

Lemma clamp01_range (x : number) :
  Math.max (Fin 0) (Math.min (Fin 1) x) = NaN \/
  probability (Math.max (Fin 0) (Math.min (Fin 1) x)).
Proof.
  destruct x as [| | | v].
  - left; reflexivity.
  - right; exists 0; split; [| lra].
    cbn [Math.min Num.lt]. reflexivity.
  - right; exists 1; split; [| lra].
    cbn [Math.min Num.lt]. rewrite max_Fin; f_equal.
    rewrite Rmax_right; lra.
  - right; apply clamp01_finite, finite_Fin.
Qed.



(** ** The p-values of the Kolmogorov-Smirnov and Anderson-Darling tests *)




Lemma INR_length_pos (data : list R) : data <> [] -> 0 < INR (List.length data).
Proof.
  intros Hne; apply (lt_INR 0); destruct data; [easy | cbn; lia].
Qed.








(** ** Numeric bounds on [exp] and [ln] *)










Lemma normCDFR_0 : normCDFR 0 = 0.5000000005.
Proof.
  unfold normCDFR, erfR; cbv zeta.
  replace (0 / R_sqrt.sqrt 2) with 0 by (unfold Rdiv; lra).
  rewrite Rleb_true, Rabs_R0 by lra.
  replace (- 0 * 0) with 0 by lra. rewrite exp_0.
  replace (1 / (1 + 0.3275911 * 0)) with 1
    by (unfold Rdiv; rewrite Rmult_0_r, Rplus_0_r, Rinv_1; lra).
  unfold erf_poly; lra.
Qed.

(** ** The Anderson-Darling test on one point at the fitted mean *)






(** ** The four tests: p-values and decisions *)



Lemma ks_statistic_witness :
  [3; 1; 2] <> [] /\
  StatisticalTest.statistic
    (kolmogorovSmirnovTest (map Fin [3; 1; 2]) (Fin 2) (Fin 1) (Fin 0.05))
  = Math.max (ks_Dplus (sort_asc (map Fin [3; 1; 2])) (Fin 2) (Fin 1))
             (ks_Dminus (sort_asc (map Fin [3; 1; 2])) (Fin 2) (Fin 1)).
Proof.
  assert (Hne : [3; 1; 2] <> []) by discriminate.
  split; [exact Hne |].
  exact (proj2 (ks_statistic_is_max_of_one_sided_distances
                  [3; 1; 2] (Fin 2) (Fin 1) (Fin 0.05) Hne)).
Defined.


(** ** Sums over positions, prefixes and suffixes *)

Lemma sum_over_nil (f : nat -> R) : sum_over f [] = 0.
Proof. reflexivity. Qed.

Lemma sum_over_cons (f : nat -> R) (j : nat) (js : list nat) :
  sum_over f (j :: js) = f j + sum_over f js.
Proof. reflexivity. Qed.



Lemma sum_over_shift (f : nat -> R) (b k : nat) :
  sum_over f (seq (S b) k) = sum_over (fun j => f (S j)) (seq b k).
Proof.
  revert b; induction k as [| k IH]; intros b; [reflexivity |].
  cbn [seq]; rewrite !sum_over_cons, IH; reflexivity.
Qed.










(** ** The Shapiro-Wilk p-value *)








(** ** The Jarque-Bera p-value is never above 1 *)








(** ** The four tests together *)






(** * Properties of the other functions *)

(** ** [clamp] *)

(** X1. [clamp(value, min, max)] on a [value] other than [NaN]: with
    [min <= max] the result lies between [min] and [max], and is
    [value] itself when [value] already does; with [max < min] the
    result is [min]. *)
Theorem clamp_stays_in_range (value lo hi : number) :
  value <> NaN ->
  (Num.le lo hi = true ->
   Num.le lo (clamp value lo hi) = true /\
   Num.le (clamp value lo hi) hi = true /\
   (Num.le lo value = true -> Num.le value hi = true ->
    clamp value lo hi = value)) /\
  (Num.lt hi lo = true -> clamp value lo hi = lo).
Proof.
  intros Hv; unfold clamp.
  destruct value as [| | |v]; [congruence | | |];
    destruct lo as [| | |a]; destruct hi as [| | |b];
    cbn; split; intros H; try discriminate; repeat split; intros;
    try discriminate; try reflexivity;
    rdec; try reflexivity; try discriminate; try lra; try (f_equal; lra);
    cbn; rdec; try reflexivity; lra.
Qed.

Lemma clamp_stays_in_range_witness :
  (Fin 5 <> NaN /\ Num.le (Fin 0) (Fin 1) = true) /\
  Num.le (Fin 0) (clamp (Fin 5) (Fin 0) (Fin 1)) = true /\
  Num.le (clamp (Fin 5) (Fin 0) (Fin 1)) (Fin 1) = true.
Proof.
  assert (Hv : Fin 5 <> NaN) by discriminate.
  assert (Hle : Num.le (Fin 0) (Fin 1) = true) by (cbn; apply Rleb_true; lra).
  split; [split; assumption |].
  destruct (clamp_stays_in_range (Fin 5) (Fin 0) (Fin 1) Hv) as [Hin _].
  destruct (Hin Hle) as (Hlo & Hhi & _).
  split; assumption.
Defined.

(** ** Symmetries of [erf], [erfc] and [normCDF] *)

Lemma erfR_odd (x : R) : x <> 0 -> erfR (- x) = - erfR x.
Proof.
  intros Hx; unfold erfR; cbv zeta.
  rewrite Rabs_Ropp.
  destruct (Rle_dec 0 x) as [H|H].
  - rewrite (Rleb_true 0 x), (Rleb_false 0 (- x)) by lra; lra.
  - rewrite (Rleb_false 0 x), (Rleb_true 0 (- x)) by lra; lra.
Qed.

Lemma erfR_0 : erfR 0 = 1e-9.
Proof.
  unfold erfR; cbv zeta.
  rewrite Rleb_true, Rabs_R0 by lra.
  replace (- 0 * 0) with 0 by lra. rewrite exp_0.
  replace (1 / (1 + 0.3275911 * 0)) with 1
    by (unfold Rdiv; rewrite Rmult_0_r, Rplus_0_r, Rinv_1; lra).
  unfold erf_poly; lra.
Qed.

Lemma erf_odd (x : number) :
  x <> Fin 0 -> erf (Num.neg x) = Num.neg (erf x).
Proof.
  intros Hx; destruct x as [| | | r]; cbn [Num.neg].
  - reflexivity.
  - rewrite erf_PosInf, erf_NegInf; cbn; f_equal; lra.
  - rewrite erf_PosInf, erf_NegInf; reflexivity.
  - rewrite !erf_Fin; cbn [Num.neg]; f_equal; apply erfR_odd; congruence.
Qed.

Lemma erf_finite_range (x : number) :
  x <> NaN -> exists r : R, erf x = Fin r /\ -1 <= r <= 1.
Proof.
  intros Hx; destruct x as [| | | r]; [congruence | | |].
  - exists (-1); rewrite erf_NegInf; split; [reflexivity | lra].
  - exists 1; rewrite erf_PosInf; split; [reflexivity | lra].
  - exists (erfR r); rewrite erf_Fin; split; [reflexivity | apply erfR_range].
Qed.

Lemma erfc_range (x : number) :
  x <> NaN -> exists c : R, erfc x = Fin c /\ 0 <= c <= 2.
Proof.
  intros Hx; unfold erfc.
  destruct (erf_finite_range x Hx) as (r & Hr & Hb).
  exists (1 - r); rewrite Hr; cbn; split; [f_equal; lra | lra].
Qed.

Lemma erfc_neg (x : number) :
  x <> NaN -> x <> Fin 0 ->
  Num.add (erfc x) (erfc (Num.neg x)) = Fin 2.
Proof.
  intros Hx H0; unfold erfc.
  destruct (erf_finite_range x Hx) as (r & Hr & Hb).
  rewrite (erf_odd x H0), Hr; cbn; f_equal; lra.
Qed.

Lemma normCDF_neg (z : number) :
  z <> NaN -> z <> Fin 0 ->
  Num.add (normCDF z) (normCDF (Num.neg z)) = Fin 1.
Proof.
  intros Hn H0; unfold normCDF.
  pose proof sqrt2_pos as Hs.
  rewrite sqrt_Fin by lra.
  assert (Hneg : Num.div (Num.neg z) (Fin (R_sqrt.sqrt 2))
                 = Num.neg (Num.div z (Fin (R_sqrt.sqrt 2)))).
  { destruct z as [| | | r]; cbn [Num.neg Num.div].
    - reflexivity.
    - rewrite Rltb_false by lra; reflexivity.
    - rewrite Rltb_false by lra; reflexivity.
    - rewrite Reqb_false by lra. cbn [Num.neg]; f_equal; unfold Rdiv; lra. }
  rewrite Hneg.
  assert (Hq : Num.div z (Fin (R_sqrt.sqrt 2)) <> Fin 0).
  { destruct z as [| | | r]; cbn [Num.div]; try rewrite Rltb_false by lra;
      try discriminate.
    rewrite Reqb_false by lra. intros E; injection E as E.
    apply H0; f_equal.
    apply (Rmult_eq_compat_r (R_sqrt.sqrt 2)) in E.
    unfold Rdiv in E; rewrite Rmult_assoc, Rinv_l in E by lra; lra. }
  assert (Hq' : Num.div z (Fin (R_sqrt.sqrt 2)) <> NaN).
  { destruct z as [| | | r]; cbn [Num.div]; try rewrite Rltb_false by lra;
      try discriminate; [congruence |].
    rewrite Reqb_false by lra; discriminate. }
  rewrite (erf_odd _ Hq).
  destruct (erf_finite_range _ Hq') as (r & Hr & _).
  rewrite Hr; cbn; f_equal; lra.
Qed.

(** X2. For every [x] other than [NaN] and zero, [erfc(x)] is a finite
    value between 0 and 2, [erfc(x) + erfc(-x) = 2] and
    [normCDF(x) + normCDF(-x) = 1].  At [Infinity] [erfc] is 0 and
    [normCDF] is 1, at [-Infinity] they are 2 and 0; at zero they are
    [1 - 1e-9] and [0.5000000005], so that both reflections fail
    there. *)
Theorem erfc_and_normCDF_reflect_about_zero (x : number) :
  x <> NaN -> x <> Fin 0 ->
  (exists c : R, erfc x = Fin c /\ 0 <= c <= 2) /\
  Num.add (erfc x) (erfc (Num.neg x)) = Fin 2 /\
  Num.add (normCDF x) (normCDF (Num.neg x)) = Fin 1 /\
  erfc PosInf = Fin 0 /\ erfc NegInf = Fin 2 /\
  erfc (Fin 0) = Fin (1 - 1e-9) /\
  normCDF PosInf = Fin 1 /\ normCDF NegInf = Fin 0 /\
  normCDF (Fin 0) = Fin 0.5000000005.
Proof.
  intros Hn H0.
  split; [exact (erfc_range x Hn) |].
  split; [exact (erfc_neg x Hn H0) |].
  split; [exact (normCDF_neg x Hn H0) |].
  pose proof sqrt2_pos as Hs.
  repeat split.
  - unfold erfc; rewrite erf_PosInf; cbn; f_equal; lra.
  - unfold erfc; rewrite erf_NegInf; cbn; f_equal; lra.
  - unfold erfc; rewrite erf_Fin, erfR_0; cbn; f_equal; lra.
  - unfold normCDF; rewrite sqrt_Fin by lra.
    cbn [Num.div]; rewrite Rltb_false, erf_PosInf by lra; cbn; f_equal; lra.
  - unfold normCDF; rewrite sqrt_Fin by lra.
    cbn [Num.div]; rewrite Rltb_false, erf_NegInf by lra; cbn; f_equal; lra.
  - rewrite normCDF_Fin, normCDFR_0; reflexivity.
Qed.

Lemma erfc_and_normCDF_witness :
  (Fin 1.5 <> NaN /\ Fin 1.5 <> Fin 0) /\
  Num.add (erfc (Fin 1.5)) (erfc (Num.neg (Fin 1.5))) = Fin 2 /\
  Num.add (normCDF (Fin 1.5)) (normCDF (Num.neg (Fin 1.5))) = Fin 1.
Proof.
  assert (Hn : Fin 1.5 <> NaN) by discriminate.
  assert (H0 : Fin 1.5 <> Fin 0) by (intros E; injection E; lra).
  split; [split; assumption |].
  destruct (erfc_and_normCDF_reflect_about_zero (Fin 1.5) Hn H0)
    as (_ & He & Hc & _).
  split; assumption.
Defined.

(** ** [erfInv] *)


















(** ** [normInv] *)






(** ** [tInv] *)








(** ** Densities: [normPDF] and [laplacePDF] *)









(** ** [tCDF] *)

Lemma tCDF_nonpositive_df (x df : number) :
  Num.le df (Fin 0) = true -> tCDF x df = NaN.
Proof. intros H; unfold tCDF; rewrite H; reflexivity. Qed.

Lemma betaInc_at_zero (a b : number) : betaInc (Fin 0) a b = Fin 0.
Proof.
  unfold betaInc; cbn [Num.lt Num.gt Num.eq].
  rewrite (Rltb_false 0 0), (Rltb_false 1 0), Reqb_true by lra.
  reflexivity.
Qed.

Lemma tCDF_at_zero (df : number) :
  Num.gt df (Fin 0) = true -> tCDF (Fin 0) df = Fin 1.
Proof.
  intros H; unfold tCDF.
  destruct df as [| | | d]; cbn in H; try discriminate.
  - cbn [Num.le Num.mul Num.add Num.div].
    rewrite betaInc_at_zero. cbn [Num.mul Num.ge Num.le].
    rewrite Rleb_true by lra. cbn; f_equal; lra.
  - apply Rltb_iff in H.
    cbn [Num.le Num.mul Num.add]. rewrite Rleb_false by lra.
    rewrite div_Fin by lra.
    replace (0 * 0 / (d + 0 * 0)) with 0 by (unfold Rdiv; lra).
    rewrite betaInc_at_zero. cbn [Num.mul Num.ge Num.le].
    rewrite Rleb_true by lra. cbn; f_equal; lra.
Qed.

(** X8. For [x > 0], [tCDF(x, df) = 1 - tCDF(-x, df)].  At zero the
    function returns 1 for every [df > 0] (the incomplete beta function
    is taken at 0 there), and it is [NaN] for [df <= 0]. *)
Theorem tCDF_reflection_and_centre (x : R) (df : number) :
  0 < x ->
  tCDF (Fin x) df = Num.sub (Fin 1) (tCDF (Fin (- x)) df) /\
  (Num.gt df (Fin 0) = true -> tCDF (Fin 0) df = Fin 1) /\
  (forall y : number, Num.le df (Fin 0) = true -> tCDF y df = NaN).
Proof.
  intros Hx; split; [| split].
  - unfold tCDF. destruct (Num.le df (Fin 0)); [reflexivity |].
    cbv zeta. cbn [Num.ge Num.le Num.mul].
    rewrite (Rleb_true 0 x), (Rleb_false 0 (- x)) by lra.
    replace (- x * - x) with (x * x) by lra.
    reflexivity.
  - apply tCDF_at_zero.
  - intros y H; apply tCDF_nonpositive_df; exact H.
Qed.

Lemma tCDF_reflection_witness :
  0 < 2 /\ tCDF (Fin 0) (Fin 3) = Fin 1.
Proof.
  assert (H : 0 < 2) by lra.
  split; [exact H |].
  apply (proj1 (proj2 (tCDF_reflection_and_centre 2 (Fin 3) H))).
  cbn; apply Rltb_true; lra.
Defined.

(** ** [computeMedian], [computeIQR] and [computeMAD] *)




















(** ** The expected shortfall against the value at risk *)







Lemma computeCVaR_above_one (l : list R) (c : R) :
  l <> [] -> 1 < c -> computeCVaR (map Fin l) (Fin c) = Fin 0.
Proof.
  intros Hl Hc.
  pose proof (INR_length_pos l Hl) as Hn.
  unfold computeCVaR. rewrite length_map_Fin.
  cbn [Num.sub Num.neg Num.add Num.mul Math.floor Num.eq].
  pose proof (Zfloor_bound ((1 + - c) * INR (List.length l))) as Hfl.
  assert (Hneg : (Zfloor ((1 + - c) * INR (List.length l)) <= -1)%Z).
  { assert (Zfloor ((1 + - c) * INR (List.length l)) < 0)%Z; [| lia].
    apply lt_IZR. nra. }
  assert (Hr : IZR (Zfloor ((1 + - c) * INR (List.length l))) <= -1)
    by (apply (IZR_le _ (-1)); exact Hneg).
  rewrite Reqb_false by lra.
  unfold Num.range.
  rewrite Rminus_0_r, Zceil_IZR.
  replace (Z.to_nat _) with 0%nat by lia.
  cbn [seq map fold_left Num.neg].
  rewrite div_Fin by lra. f_equal. unfold Rdiv; lra.
Qed.



(** X13. For a confidence above 1, [computeCVaR] returns 0 on every
    non-empty sample (the tail index is negative and nothing is
    summed), while [computeVaR] returns the negated first value. *)
Theorem cvar_is_zero_above_full_confidence (sorted : list R) (confidence : R) :
  sorted <> [] -> 1 < confidence ->
  computeCVaR (map Fin sorted) (Fin confidence) = Fin 0 /\
  computeVaR (map Fin sorted) (Fin confidence) = Fin (- List.nth 0 sorted 0).
Proof.
  intros Hne Hc; split; [apply computeCVaR_above_one; assumption |].
  rewrite computeVaR_Fin by exact Hne.
  unfold quantileR. destruct (Rle_dec (1 - confidence) 0); [reflexivity | lra].
Qed.

Lemma cvar_is_zero_above_full_confidence_witness :
  ([-0.04; -0.01; 0.02] <> [] /\ 1 < 1.5) /\
  computeCVaR (map Fin [-0.04; -0.01; 0.02]) (Fin 1.5) = Fin 0 /\
  computeVaR (map Fin [-0.04; -0.01; 0.02]) (Fin 1.5)
  = Fin (- List.nth 0 [-0.04; -0.01; 0.02] 0).
Proof.
  assert (Hne : [-0.04; -0.01; 0.02] <> []) by discriminate.
  assert (Hc : 1 < 1.5) by lra.
  split; [split; assumption |].
  exact (cvar_is_zero_above_full_confidence _ 1.5 Hne Hc).
Defined.

(** ** The statistics computed on the sorted sample ignore the order of
    the observations *)

Lemma sorted_perm_eq (l l' : list R) :
  StronglySorted Rle l -> StronglySorted Rle l' -> Permutation l l' -> l = l'.
Proof.
  revert l'; induction l as [| x l IH]; intros l' Hs Hs' Hp.
  - apply Permutation_nil in Hp; congruence.
  - destruct l' as [| y l'].
    + apply Permutation_sym, Permutation_nil in Hp; discriminate.
    + apply StronglySorted_inv in Hs; destruct Hs as [Hs Hx].
      apply StronglySorted_inv in Hs'; destruct Hs' as [Hs' Hy].
      rewrite Forall_forall in Hx, Hy.
      assert (Exy : x = y).
      { assert (Hxin : In x (y :: l'))
          by (apply (Permutation_in _ Hp); left; reflexivity).
        assert (Hyin : In y (x :: l))
          by (apply (Permutation_in _ (Permutation_sym Hp)); left; reflexivity).
        destruct Hxin as [E|Hxin]; [congruence |].
        destruct Hyin as [E|Hyin]; [congruence |].
        apply Rle_antisym; [apply Hx | apply Hy]; assumption. }
      subst y. f_equal. apply IH; try assumption.
      apply Permutation_cons_inv in Hp; exact Hp.
Qed.

Lemma sortR_of_permutation (l l' : list R) :
  Permutation l l' -> sortR l = sortR l'.
Proof.
  intros Hp.
  assert (Htr : Relations_1.Transitive Rle) by (intros a b c; apply Rle_trans).
  apply sorted_perm_eq.
  - apply Sorted_StronglySorted; [exact Htr | apply sortR_sorted].
  - apply Sorted_StronglySorted; [exact Htr | apply sortR_sorted].
  - eapply Permutation_trans; [apply Permutation_sym, sortR_perm |].
    eapply Permutation_trans; [exact Hp | apply sortR_perm].
Qed.

(** X14. [computeTailMetrics], [kolmogorovSmirnovTest] and
    [andersonDarlingTest] return the same result on two samples that
    hold the same values in a different order. *)
Theorem sorted_statistics_ignore_the_order
    (data data' : list R) (mu sigma alpha : number) :
  Permutation data data' ->
  computeTailMetrics (map Fin data) = computeTailMetrics (map Fin data') /\
  kolmogorovSmirnovTest (map Fin data) mu sigma alpha
  = kolmogorovSmirnovTest (map Fin data') mu sigma alpha /\
  andersonDarlingTest (map Fin data) mu sigma alpha
  = andersonDarlingTest (map Fin data') mu sigma alpha.
Proof.
  intros Hp.
  pose proof (sortR_of_permutation data data' Hp) as Hs.
  pose proof (Permutation_length Hp) as Hl.
  unfold computeTailMetrics, kolmogorovSmirnovTest, andersonDarlingTest.
  rewrite !sort_asc_Fin, !length_map_Fin, Hs, Hl.
  repeat split.
Qed.

Lemma sorted_statistics_ignore_the_order_witness :
  Permutation [3; 1; 2] [1; 2; 3] /\
  computeTailMetrics (map Fin [3; 1; 2]) = computeTailMetrics (map Fin [1; 2; 3]).
Proof.
  assert (Hp : Permutation [3; 1; 2] [1; 2; 3]).
  { apply (Permutation_cons_app [1; 2] [] 3). apply Permutation_refl. }
  split; [exact Hp |].
  exact (proj1 (sorted_statistics_ignore_the_order [3; 1; 2] [1; 2; 3]
                  (Fin 0) (Fin 1) (Fin 0.05) Hp)).
Defined.

(** ** The Hill estimator on samples of 25 values and more *)










(** ** Reading the Hill index *)

Lemma interpretHillIndex_insufficient (g : number) :
  interpretHillIndex g = "Insufficient data"%string <-> g = NaN.
Proof.
  split; [| intros ->; reflexivity].
  unfold interpretHillIndex.
  destruct g as [| | | r]; cbn [isNaN]; [reflexivity | | |];
    repeat match goal with
           | |- context [if ?b then _ else _] => destruct b
           end; discriminate.
Qed.

(** X16. For fewer than 25 values, [interpretHillIndex] of
    [computeHillIndex] is ['Insufficient data']; this text is returned
    for [NaN] and for no other number. *)
Theorem hill_interpretation_needs_25_values (sorted : list number) :
  (List.length sorted < 25)%nat ->
  interpretHillIndex (computeHillIndex sorted) = "Insufficient data"%string /\
  (forall g : number,
      interpretHillIndex g = "Insufficient data"%string <-> g = NaN) /\
  interpretHillIndex PosInf = "Extremely heavy tail (Pareto-like)"%string /\
  interpretHillIndex NegInf = "Very light tail (near-normal)"%string.
Proof.
  intros Hn. split; [| split; [exact interpretHillIndex_insufficient |]].
  - apply interpretHillIndex_insufficient.
    apply hill_nan_below_five.
    unfold Num.length. apply cappedTailCount_small; exact Hn.
  - split; reflexivity.
Qed.

Lemma hill_interpretation_witness :
  let sample := map Fin [1; 2; 3] in
  (List.length sample < 25)%nat /\
  interpretHillIndex (computeHillIndex sample) = "Insufficient data"%string.
Proof.
  intros sample.
  assert (H : (List.length sample < 25)%nat) by (cbn; lia).
  split; [exact H |].
  exact (proj1 (hill_interpretation_needs_25_values sample H)).
Defined.

(** ** The maximum drawdown *)














Lemma computeMaxDrawdown_nil :
  computeMaxDrawdown []
  = {| MaxDrawdown.maxDrawdown := Fin 0;
       MaxDrawdown.maxDrawdownPercent := Fin 0;
       MaxDrawdown.peakIndex := Fin (-1);
       MaxDrawdown.troughIndex := Fin (-1) |}.
Proof.
  unfold computeMaxDrawdown; cbn [Num.length List.length of_nat INR Num.eq].
  rewrite Reqb_true by reflexivity. reflexivity.
Qed.



(** ** Downside deviation and the Sortino ratio *)














(** ** [validateData] *)










(** ** Rolling statistics *)









(** ** The autocorrelation function *)


Lemma devsqR_as_sum_over (c : R) (l : list R) :
  devsqR c l
  = sum_over (fun i => (List.nth i l 0 - c) * (List.nth i l 0 - c))
             (seq 0 (List.length l)).
Proof.
  induction l as [| x l IH]; [reflexivity |].
  rewrite devsqR_cons. cbn [List.length seq].
  rewrite sum_over_cons, sum_over_shift, IH. reflexivity.
Qed.













(** ** The regressions of [fitAR1] and [adfTest] *)


Lemma range_1_nat (n : nat) :
  Num.range (Fin 1) (Fin (INR n))
  = map (fun j => Fin (1 + INR j)) (seq 0 (n - 1)).
Proof.
  unfold Num.range. do 2 f_equal.
  destruct (le_lt_dec 1 n) as [H|H].
  - replace (INR n - 1) with (INR (n - 1))
      by (rewrite minus_INR by lia; cbn [INR]; lra).
    rewrite INR_Zceil. lia.
  - replace n with 0%nat by lia. cbn [INR Nat.sub].
    replace (0 - 1) with (IZR (-1)) by lra.
    rewrite Zceil_IZR. reflexivity.
Qed.


Lemma regression_fold_Fin (X Y : list R) (mx my : R) (js : list nat) :
  Forall (fun j => (j < List.length X)%nat /\ (j < List.length Y)%nat) js ->
  forall a b : R,
    fold_left (regression_step (map Fin X) (map Fin Y) (Fin mx) (Fin my))
              (map (fun j => Fin (0 + INR j)) js) (Fin a, Fin b)
    = (Fin (a + sum_over (fun i => (List.nth i X 0 - mx) * (List.nth i Y 0 - my))
                         js),
       Fin (b + sum_over (fun i => (List.nth i X 0 - mx) * (List.nth i X 0 - mx))
                         js)).
Proof.
  induction 1 as [| j js [HjX HjY] Hjs IH]; intros a b; cbn [map fold_left].
  - rewrite !sum_over_nil; do 2 f_equal; lra.
  - unfold regression_step at 2.
    replace (0 + INR j) with (INR j) by lra.
    rewrite !get_Fin_nat by assumption.
    cbn [Num.sub Num.neg Num.add]. rewrite pow_Fin.
    cbn [Num.add Num.mul].
    rewrite IH, !sum_over_cons. do 2 f_equal; cbn [pow]; unfold Rminus; lra.
Qed.

Lemma regression_Fin (X Y : list R) (mx my : R) :
  List.length Y = List.length X ->
  fold_left (regression_step (map Fin X) (map Fin Y) (Fin mx) (Fin my))
            (Num.range (Fin 0) (Num.length (map Fin X))) (Fin 0, Fin 0)
  = (Fin (sum_over (fun i => (List.nth i X 0 - mx) * (List.nth i Y 0 - my))
                   (seq 0 (List.length X))),
     Fin (devsqR mx X)).
Proof.
  intros Hlen. rewrite length_map_Fin, range_0_nat.
  rewrite regression_fold_Fin
    by (apply Forall_forall; intros j Hj; apply in_seq in Hj; lia).
  rewrite devsqR_as_sum_over. do 2 f_equal; lra.
Qed.

Lemma sum_over_zero (f : nat -> R) (js : list nat) :
  (forall j : nat, In j js -> f j = 0) -> sum_over f js = 0.
Proof.
  induction js as [| j js IH]; intros H; [reflexivity |].
  rewrite sum_over_cons, (H j (or_introl eq_refl)), IH; [lra |].
  intros i Hi; apply H; right; exact Hi.
Qed.

Lemma meanR_constant (l : list R) (c : R) :
  l <> [] -> (forall x : R, In x l -> x = c) -> meanR l = c.
Proof.
  intros Hl H. pose proof (INR_length_pos l Hl) as Hn.
  unfold meanR.
  assert (Hs : sumR l = INR (List.length l) * c).
  { clear Hl Hn. induction l as [| x l IH]; [cbn; lra |].
    rewrite sumR_cons. cbn [List.length]. rewrite S_INR.
    rewrite (H x (or_introl eq_refl)), IH; [lra |].
    intros y Hy; apply H; right; exact Hy. }
  rewrite Hs. field. lra.
Qed.

Lemma devsqR_constant (l : list R) (c : R) :
  (forall x : R, In x l -> x = c) -> devsqR c l = 0.
Proof.
  induction l as [| x l IH]; intros H; [reflexivity |].
  rewrite devsqR_cons, (H x (or_introl eq_refl)), IH; [lra |].
  intros y Hy; apply H; right; exact Hy.
Qed.




Lemma firstn_skipn_constant (l : list R) (c : R) (k : nat) :
  (forall x : R, In x l -> x = c) ->
  (forall x : R, In x (firstn k l) -> x = c) /\
  (forall x : R, In x (skipn k l) -> x = c).
Proof.
  intros H; split; intros x Hx; apply H.
  - rewrite <- (firstn_skipn k l). apply in_or_app; left; exact Hx.
  - rewrite <- (firstn_skipn k l). apply in_or_app; right; exact Hx.
Qed.







(** ** The Dickey-Fuller test *)

Lemma adfTest_short (data : list number) :
  (List.length data < 4)%nat ->
  adfTest data
  = {| ADF.statistic := NaN; ADF.pValue := NaN; ADF.stationarity := marginal |}.
Proof.
  intros Hn. unfold adfTest, Num.length, of_nat. cbn [Num.lt].
  rewrite Rltb_true by (rewrite INR_IZR_INZ; apply (IZR_lt _ 4); lia).
  reflexivity.
Qed.

Lemma adf_verdict (statistic : number) :
  let pValue :=
    if Num.lt statistic (Fin (-3.51)) then Fin 0.005
    else if Num.lt statistic (Fin (-2.89)) then Fin 0.03
    else if Num.lt statistic (Fin (-2.58)) then Fin 0.08
    else Fin 0.15 in
  let verdict :=
    if Num.lt pValue (Fin 0.05) then stationary
    else if Num.lt pValue (Fin 0.10) then marginal
    else non_stationary in
  (Num.lt statistic (Fin (-3.51)) = true /\
   pValue = Fin 0.005 /\ verdict = stationary) \/
  (Num.lt statistic (Fin (-3.51)) = false /\
   Num.lt statistic (Fin (-2.89)) = true /\
   pValue = Fin 0.03 /\ verdict = stationary) \/
  (Num.lt statistic (Fin (-2.89)) = false /\
   Num.lt statistic (Fin (-2.58)) = true /\
   pValue = Fin 0.08 /\ verdict = marginal) \/
  (Num.lt statistic (Fin (-2.58)) = false /\
   pValue = Fin 0.15 /\ verdict = non_stationary).
Proof.
  cbv zeta.
  destruct (Num.lt statistic (Fin (-3.51))) eqn:E1.
  { left. cbn [Num.lt]. rewrite Rltb_true by lra. tauto. }
  destruct (Num.lt statistic (Fin (-2.89))) eqn:E2.
  { right; left. cbn [Num.lt]. rewrite Rltb_true by lra. tauto. }
  destruct (Num.lt statistic (Fin (-2.58))) eqn:E3.
  { right; right; left. cbn [Num.lt].
    rewrite (Rltb_false 0.08 0.05), (Rltb_true 0.08 0.10) by lra. tauto. }
  right; right; right. cbn [Num.lt].
  rewrite (Rltb_false 0.15 0.05), (Rltb_false 0.15 0.10) by lra. tauto.
Qed.

Lemma adfTest_verdict (data : list number) :
  (4 <= List.length data)%nat ->
  let r := adfTest data in
  (Num.lt (ADF.statistic r) (Fin (-3.51)) = true /\
   ADF.pValue r = Fin 0.005 /\ ADF.stationarity r = stationary) \/
  (Num.lt (ADF.statistic r) (Fin (-3.51)) = false /\
   Num.lt (ADF.statistic r) (Fin (-2.89)) = true /\
   ADF.pValue r = Fin 0.03 /\ ADF.stationarity r = stationary) \/
  (Num.lt (ADF.statistic r) (Fin (-2.89)) = false /\
   Num.lt (ADF.statistic r) (Fin (-2.58)) = true /\
   ADF.pValue r = Fin 0.08 /\ ADF.stationarity r = marginal) \/
  (Num.lt (ADF.statistic r) (Fin (-2.58)) = false /\
   ADF.pValue r = Fin 0.15 /\ ADF.stationarity r = non_stationary).
Proof.
  intros Hn r. unfold r, adfTest, Num.length, of_nat. cbn [Num.lt].
  rewrite Rltb_false by (rewrite INR_IZR_INZ; apply (IZR_le 4); lia).
  cbv zeta.
  destruct (fold_left _ _ _) as [numerator denominator].
  cbn [ADF.statistic ADF.pValue ADF.stationarity].
  match goal with
  | |- context [Num.lt ?s (Fin (-3.51))] => exact (adf_verdict s)
  end.
Qed.

Lemma slice_all_but_last {A : Type} (arr : list A) :
  slice arr (Fin 0) (Fin (-1)) = firstn (List.length arr - 1) arr.
Proof.
  unfold slice, slice_position, Ztrunc.
  rewrite (Rleb_true 0 0), (Rleb_false 0 (-1)) by lra.
  replace 0 with (IZR 0) at 1 by reflexivity. rewrite ZfloorZ.
  rewrite Zceil_IZR.
  cbn [Z.ltb Z.compare Z.to_nat Nat.min skipn].
  replace (Z.to_nat (Z.max (Z.of_nat (List.length arr) + -1) 0))
    with (List.length arr - 1)%nat by lia.
  rewrite Nat.sub_0_r. reflexivity.
Qed.

Lemma differences_Fin (l : list R) :
  map (fun t =>
         Num.sub (Num.get (map Fin l) t)
                 (Num.get (map Fin l) (Num.sub t (Fin 1))))
      (Num.range (Fin 1) (Num.length (map Fin l)))
  = map Fin (map (fun j => List.nth (S j) l 0 - List.nth j l 0)
                 (seq 0 (List.length l - 1))).
Proof.
  rewrite length_map_Fin, range_1_nat, !map_map.
  apply map_ext_in. intros j Hj. apply in_seq in Hj.
  cbn [Num.sub Num.neg Num.add].
  replace (1 + INR j + - (1)) with (INR j) by lra.
  replace (1 + INR j) with (INR (S j)) by (rewrite S_INR; lra).
  rewrite !get_Fin_nat by lia. reflexivity.
Qed.

Lemma adfTest_statistic (l : list R) :
  (4 <= List.length l)%nat ->
  let X := firstn (List.length l - 1) l in
  let Y := map (fun j => List.nth (S j) l 0 - List.nth j l 0)
               (seq 0 (List.length l - 1)) in
  let gamma :=
    Num.div
      (Fin (sum_over (fun i => (List.nth i X 0 - meanR X)
                               * (List.nth i Y 0 - meanR Y))
                     (seq 0 (List.length X))))
      (Fin (devsqR (meanR X) X)) in
  gamma = NaN -> ADF.statistic (adfTest (map Fin l)) = NaN.
Proof.
  intros Hn X Y gamma Hg.
  assert (HlX : List.length X = (List.length l - 1)%nat)
    by (unfold X; rewrite length_firstn; lia).
  assert (HlY : List.length Y = (List.length l - 1)%nat)
    by (unfold Y; rewrite length_map, length_seq; lia).
  assert (Hm : 0 < INR (List.length l - 1)) by (apply (lt_INR 0); lia).
  unfold adfTest.
  rewrite differences_Fin, slice_all_but_last, length_map, firstn_map. fold X Y.
  rewrite length_map_Fin at 1. cbn [Num.lt].
  rewrite Rltb_false by (rewrite INR_IZR_INZ; apply (IZR_le 4); lia).
  cbv zeta.
  rewrite !fold_sum_Fin, !length_map_Fin, HlX, HlY, !div_Fin by lra.
  replace ((0 + sumR X) / INR (List.length l - 1)) with (meanR X)
    by (unfold meanR; rewrite HlX; f_equal; lra).
  replace ((0 + sumR Y) / INR (List.length l - 1)) with (meanR Y)
    by (unfold meanR; rewrite HlY; f_equal; lra).
  rewrite <- HlX, <- (length_map_Fin X).
  rewrite (regression_Fin X Y) by lia.
  cbn [ADF.statistic]. fold gamma. rewrite Hg. reflexivity.
Qed.

(** X24. [adfTest] returns [NaN]s and ['marginal'] for fewer than
    four values.  Otherwise its p-value is one of 0.005, 0.03, 0.08 and
    0.15 and its verdict follows the statistic: ['stationary'] below
    -2.89, ['marginal'] from -2.89 to below -2.58, ['non-stationary']
    otherwise, a [NaN] statistic included.  A constant series of four
    values or more gets a [NaN] statistic, the p-value 0.15 and
    ['non-stationary']. *)
Theorem adfTest_verdict_follows_the_statistic (data : list number) :
  ((List.length data < 4)%nat ->
   adfTest data
   = {| ADF.statistic := NaN; ADF.pValue := NaN;
        ADF.stationarity := marginal |}) /\
  ((4 <= List.length data)%nat ->
   let r := adfTest data in
   (Num.lt (ADF.statistic r) (Fin (-3.51)) = true /\
    ADF.pValue r = Fin 0.005 /\ ADF.stationarity r = stationary) \/
   (Num.lt (ADF.statistic r) (Fin (-3.51)) = false /\
    Num.lt (ADF.statistic r) (Fin (-2.89)) = true /\
    ADF.pValue r = Fin 0.03 /\ ADF.stationarity r = stationary) \/
   (Num.lt (ADF.statistic r) (Fin (-2.89)) = false /\
    Num.lt (ADF.statistic r) (Fin (-2.58)) = true /\
    ADF.pValue r = Fin 0.08 /\ ADF.stationarity r = marginal) \/
   (Num.lt (ADF.statistic r) (Fin (-2.58)) = false /\
    ADF.pValue r = Fin 0.15 /\ ADF.stationarity r = non_stationary)) /\
  (forall (l : list R) (c : R),
      data = map Fin l -> (4 <= List.length l)%nat ->
      (forall x : R, In x l -> x = c) ->
      adfTest data
      = {| ADF.statistic := NaN; ADF.pValue := Fin 0.15;
           ADF.stationarity := non_stationary |}).
Proof.
  split; [apply adfTest_short |]. split; [apply adfTest_verdict |].
  intros l c -> Hn Hc.
  assert (Hstat : ADF.statistic (adfTest (map Fin l)) = NaN).
  { apply adfTest_statistic; [exact Hn |].
    set (X := firstn (List.length l - 1) l).
    destruct (firstn_skipn_constant l c (List.length l - 1) Hc) as [HX _].
    assert (HXne : X <> []).
    { intros E. apply (f_equal (@List.length R)) in E.
      unfold X in E. rewrite length_firstn in E. cbn in E. lia. }
    fold X in HX.
    rewrite (meanR_constant X c HXne HX).
    rewrite (devsqR_constant X c HX).
    rewrite sum_over_zero.
    - cbn [Num.div]. rewrite Reqb_true by reflexivity. reflexivity.
    - intros i Hi. apply in_seq in Hi.
      rewrite (HX (List.nth i X 0)) by (apply nth_In; lia). lra. }
  assert (Hlen : (4 <= List.length (map Fin l))%nat)
    by (rewrite length_map; exact Hn).
  pose proof (adfTest_verdict (map Fin l) Hlen) as Hv. cbv zeta in Hv.
  destruct (adfTest (map Fin l)) as [st pv ver].
  cbn [ADF.statistic ADF.pValue ADF.stationarity] in *. subst st.
  cbn [Num.lt] in Hv.
  destruct Hv as [(H & _) | [(_ & H & _) | [(_ & H & _) | (_ & -> & ->)]]];
    try discriminate.
  reflexivity.
Qed.

(** ** The normal fit *)





(** ** Log-likelihood and the information criteria *)




(** ** The Laplace fit: the median minimises the absolute deviations *)











(** ** The Student-t fit *)








(** ** Ranking the fits *)

Lemma insert_by_aic_perm (x : Criterion.t) (l : list Criterion.t) :
  Permutation (x :: l) (insert_by_aic x l).
Proof.
  induction l as [| y l IH]; cbn [insert_by_aic]; [reflexivity |].
  destruct (Num.gt _ _); [| reflexivity].
  eapply Permutation_trans; [apply perm_swap |].
  apply perm_skip; exact IH.
Qed.

Lemma sort_by_aic_perm (l : list Criterion.t) :
  Permutation l (sort_by_aic l).
Proof.
  induction l as [| x l IH]; [reflexivity |].
  cbn [sort_by_aic fold_right].
  eapply Permutation_trans; [| apply insert_by_aic_perm].
  apply perm_skip; exact IH.
Qed.

Lemma insert_by_aic_sorted (x : Criterion.t) (l : list Criterion.t) :
  finite (Criterion.aic x) ->
  Forall (fun y => finite (Criterion.aic y)) l ->
  Sorted aic_le l -> Sorted aic_le (insert_by_aic x l).
Proof.
  intros [ax Hx] Hfin Hs.
  induction l as [| y l IH]; cbn [insert_by_aic].
  - repeat constructor.
  - apply Forall_cons_iff in Hfin; destruct Hfin as [[ay Hy] Hfin].
    apply Sorted_inv in Hs; destruct Hs as [Hs Hhd].
    rewrite Hx, Hy. cbn [Num.sub Num.neg Num.add Num.gt Num.lt].
    unfold Rltb. destruct (Rlt_dec 0 (ax + - ay)) as [Hgt|Hle].
    + constructor; [apply IH; assumption |].
      destruct l as [| w l]; cbn [insert_by_aic].
      * constructor. unfold aic_le. rewrite Hx, Hy. cbn. apply Rleb_true; lra.
      * apply Forall_cons_iff in Hfin; destruct Hfin as [[aw Hw] _].
        rewrite Hx, Hw. cbn [Num.sub Num.neg Num.add Num.gt Num.lt].
        destruct (Rltb 0 (ax + - aw)).
        -- constructor. apply HdRel_inv in Hhd. exact Hhd.
        -- constructor. unfold aic_le. rewrite Hx, Hy. cbn.
           apply Rleb_true; lra.
    + constructor; [constructor; assumption |].
      constructor. unfold aic_le. rewrite Hx, Hy. cbn. apply Rleb_true; lra.
Qed.

Lemma sort_by_aic_sorted (l : list Criterion.t) :
  Forall (fun y => finite (Criterion.aic y)) l -> Sorted aic_le (sort_by_aic l).
Proof.
  induction l as [| x l IH]; intros Hfin; [constructor |].
  apply Forall_cons_iff in Hfin; destruct Hfin as [Hx Hfin].
  cbn [sort_by_aic fold_right].
  apply insert_by_aic_sorted; [exact Hx | | apply IH; exact Hfin].
  apply (Permutation_Forall (sort_by_aic_perm l)); exact Hfin.
Qed.

(** X29. [compareDistributions] returns the three entries 'Normal',
    'Laplace' and 'Student-t' in some order, and in ascending order of
    their AIC when the three AIC are finite. *)
Theorem compareDistributions_ranks_by_aic
    (data : list number) (normalFit : NormalFit.t)
    (laplaceFit : LaplaceFit.t) (tFit : StudentTFit.t) :
  let ranking := compareDistributions data normalFit laplaceFit tFit in
  Permutation (map Criterion.name ranking)
              ["Normal"%string; "Laplace"%string; "Student-t"%string] /\
  List.length ranking = 3%nat /\
  (Forall (fun c => finite (Criterion.aic c)) ranking ->
   Sorted aic_le ranking).
Proof.
  intros ranking. unfold ranking, compareDistributions; cbv zeta.
  match goal with
  | |- context [sort_by_aic ?l] => set (results := l)
  end.
  pose proof (sort_by_aic_perm results) as Hp.
  split; [| split].
  - apply Permutation_sym. apply (Permutation_map Criterion.name) in Hp.
    exact Hp.
  - rewrite <- (Permutation_length Hp). reflexivity.
  - intros Hfin. apply sort_by_aic_sorted.
    apply (Permutation_Forall (Permutation_sym Hp)); exact Hfin.
Qed.

(** ** The histogram *)


























